(** * An in-memory key-value store served over HTTP (main.go)

    The development embeds the four request handlers of [main.go]
    ([setHandler], [putHandler], [getHandler], [deleteHandler]) and the
    dispatcher [storageHandler] as programs of a small state monad.  The
    state holds the process-wide [storage] map, the [http.ResponseWriter]
    of the request being served and the sequence of effects performed so
    far (lock operations, map accesses, body decoding, logging, response
    writes), so that the order in which a handler locks, decodes and
    answers can be read off its run. *)

From Stdlib Require Import Floats.
From stdpp Require Import gmap strings list fin_maps.

Local Open Scope string_scope.

#[local] Set Warnings "-register-all".

(** ** Values

    [storage] is a [map[string]interface{}].  Its values are what
    [encoding/json] decodes into an [interface{}]: [nil], [bool],
    [float64], [string], [[]interface{}] and [map[string]interface{}]. *)

Inductive Value : Type :=
| VNull
| VBool (b : bool)
| VNumber (f : float)
| VString (s : string)
| VArray (l : list Value)
| VObject (m : gmap string Value).

(** ** Status codes of [net/http] used by the handlers *)

Definition StatusOK : Z := 200.
Definition StatusCreated : Z := 201.
Definition StatusNoContent : Z := 204.
Definition StatusBadRequest : Z := 400.
Definition StatusNotFound : Z := 404.
Definition StatusMethodNotAllowed : Z := 405.
Definition StatusConflict : Z := 409.
Definition StatusInternalServerError : Z := 500.

Definition MethodGet : string := "GET".
Definition MethodPost : string := "POST".
Definition MethodPut : string := "PUT".
Definition MethodDelete : string := "DELETE".

(** ** The response writer

    [wroteHeader] is [None] until the status line is written; a later
    [WriteHeader] is ignored, and the first [Write] without a status
    writes [StatusOK]. *)

Record ResponseWriter : Type := mkResponseWriter {
  header : gmap string string;
  wroteHeader : option Z;
  body : string
}.

Definition NewRecorder : ResponseWriter :=
  {| header := ∅; wroteHeader := None; body := "" |}.

(** The status a client sees: the one written, [StatusOK] when the handler
    returned without writing any. *)
Definition Code (w : ResponseWriter) : Z :=
  default StatusOK (wroteHeader w).

(** ** Effects *)

Inductive Level : Type := InfoLevel | WarnLevel | ErrorLevel.

Inductive Event : Type :=
| EvLock
| EvUnlock
| EvRLock
| EvRUnlock
| EvMapLookup (key : string)
| EvMapStore (key : string) (value : Value)
| EvMapDelete (key : string)
| EvDecodeBody
| EvLog (lvl : Level) (msg : string)
| EvResponse.

Record State : Type := mkState {
  storage : gmap string Value;
  w : ResponseWriter;
  trace : list Event
}.

(** ** The handler monad: state passing over [State] *)

Definition M (A : Type) : Type := State -> A * State.

Definition ret {A} (a : A) : M A := fun st => (a, st).

Definition bind {A B} (m : M A) (k : A -> M B) : M B :=
  fun st => let '(a, st') := m st in k a st'.

Declare Scope handler_scope.
Delimit Scope handler_scope with handler.
Notation "x <- m ;; k" := (bind m (fun x => k))
  (at level 100, m at next level, right associativity) : handler_scope.
Notation "m ;;; k" := (bind m (fun _ => k))
  (at level 100, right associativity) : handler_scope.
Local Open Scope handler_scope.

Definition emit (e : Event) : M unit :=
  fun st => (tt, {| storage := storage st; w := w st; trace := trace st ++ [e] |}).

Definition modify_storage (f : gmap string Value -> gmap string Value) : M unit :=
  fun st => (tt, {| storage := f (storage st); w := w st; trace := trace st |}).

Definition modify_w (f : ResponseWriter -> ResponseWriter) : M unit :=
  fun st => (tt, {| storage := storage st; w := f (w st); trace := trace st |}).

Definition get_storage : M (gmap string Value) :=
  fun st => (storage st, st).

(** *** [sync.RWMutex] *)

Definition mutex_Lock : M unit := emit EvLock.
Definition mutex_Unlock : M unit := emit EvUnlock.
Definition mutex_RLock : M unit := emit EvRLock.
Definition mutex_RUnlock : M unit := emit EvRUnlock.

(** [defer f] followed by the rest of the function body: [f] runs when the
    body returns, on every path. *)
Definition defer {A} (f : M unit) (rest : M A) : M A :=
  a <- rest ;; f ;;; ret a.

(** *** The [storage] map *)

(** [value, exists := storage[key]] *)
Definition storage_lookup (key : string) : M (option Value) :=
  emit (EvMapLookup key) ;;;
  m <- get_storage ;;
  ret (m !! key).

(** [storage[key] = value] *)
Definition storage_store (key : string) (value : Value) : M unit :=
  emit (EvMapStore key value) ;;;
  modify_storage (insert key value).

(** [delete(storage, key)] *)
Definition storage_delete (key : string) : M unit :=
  emit (EvMapDelete key) ;;;
  modify_storage (delete key).

(** *** [logrus] *)

Definition logger_Info (msg : string) : M unit := emit (EvLog InfoLevel msg).
Definition logger_Warn (msg : string) : M unit := emit (EvLog WarnLevel msg).
Definition logger_Error (msg : string) : M unit := emit (EvLog ErrorLevel msg).

(** *** [net/http] response writes *)

Definition set_header (k v : string) (rw : ResponseWriter) : ResponseWriter :=
  {| header := <[k := v]> (header rw); wroteHeader := wroteHeader rw; body := body rw |}.

Definition write_header (code : Z) (rw : ResponseWriter) : ResponseWriter :=
  match wroteHeader rw with
  | Some _ => rw
  | None => {| header := header rw; wroteHeader := Some code; body := body rw |}
  end.

Definition write_body (data : string) (rw : ResponseWriter) : ResponseWriter :=
  let rw' := write_header StatusOK rw in
  {| header := header rw'; wroteHeader := wroteHeader rw'; body := body rw' ++ data |}.

Definition newline : string := String (Ascii.ascii_of_nat 10) EmptyString.

(** [w.Header().Set(k, v)] *)
Definition w_Header_Set (k v : string) : M unit := modify_w (set_header k v).

(** [w.WriteHeader(code)] *)
Definition w_WriteHeader (code : Z) : M unit :=
  emit EvResponse ;;; modify_w (write_header code).

(** [w.Write(data)] *)
Definition w_Write (data : string) : M unit :=
  emit EvResponse ;;; modify_w (write_body data).

(** [http.Error(w, msg, code)]: plain-text headers, the status, then the
    message on a line of its own. *)
Definition http_Error (msg : string) (code : Z) : M unit :=
  emit EvResponse ;;;
  modify_w (fun rw =>
    write_body (msg ++ newline)
      (write_header code
        (set_header "X-Content-Type-Options" "nosniff"
          (set_header "Content-Type" "text/plain; charset=utf-8"
            {| header := delete "Content-Length" (header rw);
               wroteHeader := wroteHeader rw; body := body rw |})))).

(** [strings.HasPrefix] and [strings.TrimPrefix] *)

Definition HasPrefix (s pre : string) : bool := String.prefix pre s.

Definition TrimPrefix (s pre : string) : string :=
  if HasPrefix s pre
  then String.substring (String.length pre) (String.length s - String.length pre) s
  else s.

(** Running a handler for one request: the store as it is, a fresh
    response writer, no effect performed yet. *)
Definition serve (h : M unit) (sto : gmap string Value) : State :=
  snd (h {| storage := sto; w := NewRecorder; trace := [] |}).

(** ** The handlers

    [encoding/json] is outside the repository: the handlers are embedded
    over any request-body type [ReadCloser], any decoder [json_Decode]
    ([None] when [Decode] returns an error) and any encoder [json_Marshal]
    ([None] when [Marshal] returns an error). *)

Section Handlers.

Variable ReadCloser : Type.
Variable json_Decode : ReadCloser -> option Value.
Variable json_Marshal : Value -> option string.

Record Request : Type := mkRequest {
  Method : string;
  URL_Path : string;
  Body : ReadCloser
}.

(** [json.NewDecoder(r.Body).Decode(&value)] *)
Definition decode_body (r : Request) : M (option Value) :=
  emit EvDecodeBody ;;; ret (json_Decode (Body r)).

Definition setHandler (r : Request) (key : string) : M unit :=
  mutex_Lock ;;;
  defer mutex_Unlock (
    found <- storage_lookup key ;;
    match found with
    | Some _ =>
        logger_Warn "Resource already exists" ;;;
        http_Error "Resource already exists" StatusConflict
    | None =>
        res <- decode_body r ;;
        match res with
        | None =>
            logger_Error "Failed to decode request body" ;;;
            http_Error "Invalid request body" StatusBadRequest
        | Some value =>
            storage_store key value ;;;
            logger_Info "Data stored successfully" ;;;
            w_WriteHeader StatusCreated
        end
    end).

Definition putHandler (r : Request) (key : string) : M unit :=
  res <- decode_body r ;;
  match res with
  | None =>
      logger_Error "Failed to decode request body" ;;;
      http_Error "Invalid request body" StatusBadRequest
  | Some value =>
      mutex_Lock ;;;
      storage_store key value ;;;
      mutex_Unlock ;;;
      logger_Info "Value updated" ;;;
      w_WriteHeader StatusOK
  end.

Definition getHandler (r : Request) (key : string) : M unit :=
  mutex_RLock ;;;
  found <- storage_lookup key ;;
  mutex_RUnlock ;;;
  match found with
  | None =>
      logger_Warn "No value found" ;;;
      http_Error "No value found" StatusNotFound
  | Some value =>
      match json_Marshal (VObject {[ key := value ]}) with
      | None =>
          logger_Error "Failed to marshal JSON" ;;;
          http_Error "Failed to marshal JSON" StatusInternalServerError
      | Some jsonData =>
          logger_Info "Data successfully found and returned" ;;;
          w_Header_Set "Content-Type" "application/json" ;;;
          w_Write jsonData
      end
  end.

Definition deleteHandler (r : Request) (key : string) : M unit :=
  mutex_Lock ;;;
  defer mutex_Unlock (
    found <- storage_lookup key ;;
    match found with
    | None =>
        logger_Warn "Data not found" ;;;
        http_Error "Data not found" StatusNotFound
    | Some _ =>
        storage_delete key ;;;
        logger_Info "Data deleted successfully" ;;;
        w_WriteHeader StatusNoContent
    end).

Definition storageHandler (r : Request) : M unit :=
  let key := TrimPrefix (URL_Path r) "/storage/" in
  if String.eqb key "" then
    http_Error "Required param key is empty" StatusBadRequest
  else
    logger_Info "Received request" ;;;
    (if String.eqb (Method r) MethodGet then getHandler r key
     else if String.eqb (Method r) MethodPost then setHandler r key
     else if String.eqb (Method r) MethodPut then putHandler r key
     else if String.eqb (Method r) MethodDelete then deleteHandler r key
     else
       logger_Warn "Unsupported method" ;;;
       http_Error "Unsupported method" StatusMethodNotAllowed) ;;;
    logger_Info "Request handled".

End Handlers.

Arguments Method {ReadCloser} _.
Arguments URL_Path {ReadCloser} _.
Arguments Body {ReadCloser} _.
Arguments mkRequest {ReadCloser} _ _ _.
Arguments decode_body {ReadCloser} json_Decode r.
Arguments setHandler {ReadCloser} json_Decode r key.
Arguments putHandler {ReadCloser} json_Decode r key.
Arguments getHandler {ReadCloser} json_Marshal r key.
Arguments deleteHandler {ReadCloser} r key.
Arguments storageHandler {ReadCloser} json_Decode json_Marshal r.

(** ** What a handler leaves behind *)

(** The response [http.Error(w, msg, code)] produces on a fresh writer. *)
Definition error_reply (msg : string) (code : Z) : ResponseWriter :=
  {| header := <["X-Content-Type-Options" := "nosniff"]>
                 (<["Content-Type" := "text/plain; charset=utf-8"]>
                    (delete "Content-Length" ∅));
     wroteHeader := Some code;
     body := msg ++ newline |}.

(** The response of a bare [w.WriteHeader(code)] on a fresh writer. *)
Definition status_reply (code : Z) : ResponseWriter :=
  {| header := ∅; wroteHeader := Some code; body := "" |}.

(** The response of [getHandler] when the value was found and encoded. *)
Definition json_reply (jsonData : string) : ResponseWriter :=
  {| header := <["Content-Type" := "application/json"]> ∅;
     wroteHeader := Some StatusOK;
     body := jsonData |}.

(** ** Sequences of operations

    The spec names the four handlers Create ([setHandler], POST), Upsert
    ([putHandler], PUT), Read ([getHandler], GET) and Delete
    ([deleteHandler], DELETE). *)

Inductive Op (ReadCloser : Type) : Type :=
| Create (r : Request ReadCloser) (key : string)
| Upsert (r : Request ReadCloser) (key : string)
| Read (r : Request ReadCloser) (key : string)
| Delete (r : Request ReadCloser) (key : string).

Arguments Create {ReadCloser} r key.
Arguments Upsert {ReadCloser} r key.
Arguments Read {ReadCloser} r key.
Arguments Delete {ReadCloser} r key.

Definition op_key {ReadCloser : Type} (o : Op ReadCloser) : string :=
  match o with
  | Create _ key | Upsert _ key | Read _ key | Delete _ key => key
  end.

Section Sequences.

Context {ReadCloser : Type}.
Variable json_Decode : ReadCloser -> option Value.
Variable json_Marshal : Value -> option string.

Definition handler_of (o : Op ReadCloser) : M unit :=
  match o with
  | Create r key => setHandler json_Decode r key
  | Upsert r key => putHandler json_Decode r key
  | Read r key => getHandler json_Marshal r key
  | Delete r key => deleteHandler r key
  end.

(** One operation served on a store: the store afterwards and the
    response the caller received. *)
Definition step (sto : gmap string Value) (o : Op ReadCloser)
  : gmap string Value * ResponseWriter :=
  let st := serve (handler_of o) sto in (storage st, w st).

(** Operations served one after the other; the history pairs each
    operation with its response, oldest first. *)
Fixpoint run (ops : list (Op ReadCloser)) (sto : gmap string Value)
  : gmap string Value * list (Op ReadCloser * ResponseWriter) :=
  match ops with
  | [] => (sto, [])
  | o :: ops' =>
      let '(sto1, rw) := step sto o in
      let '(sto2, hist) := run ops' sto1 in
      (sto2, (o, rw) :: hist)
  end.

(** One request served by the dispatcher. *)
Definition serve_request (sto : gmap string Value) (r : Request ReadCloser)
  : gmap string Value * ResponseWriter :=
  let st := serve (storageHandler json_Decode json_Marshal r) sto in
  (storage st, w st).

(** Requests served one after the other by the dispatcher, with the
    responses in the order of the requests. *)
Fixpoint serve_all (reqs : list (Request ReadCloser)) (sto : gmap string Value)
  : gmap string Value * list ResponseWriter :=
  match reqs with
  | [] => (sto, [])
  | r :: reqs' =>
      let '(sto1, rw) := serve_request sto r in
      let '(sto2, rws) := serve_all reqs' sto1 in
      (sto2, rw :: rws)
  end.

(** The spec's dispatch note: POST is Create, PUT is Upsert, GET is Read,
    DELETE is Delete, on the key that follows [/storage/]; a request with
    an empty key or another verb reaches no operation. *)
Definition operation (r : Request ReadCloser) : option (Op ReadCloser) :=
  let key := TrimPrefix (URL_Path r) "/storage/" in
  if String.eqb key "" then None
  else if String.eqb (Method r) MethodGet then Some (Read r key)
  else if String.eqb (Method r) MethodPost then Some (Create r key)
  else if String.eqb (Method r) MethodPut then Some (Upsert r key)
  else if String.eqb (Method r) MethodDelete then Some (Delete r key)
  else None.

(** *** The spec's reading of a history

    These definitions follow the words of the spec, not the code: a
    mutation is successful when its status is a 2xx one; a successful
    Create or Upsert of [k] writes the decoded value, a successful Delete
    of [k] removes it. *)

Inductive Mutation : Type :=
| Wrote (value : Value)
| Removed.

Definition successful (code : Z) : bool :=
  (200 <=? code)%Z && (code <? 300)%Z.

Definition mutation_of (k : string) (e : Op ReadCloser * ResponseWriter)
  : option Mutation :=
  if successful (Code (snd e)) then
    match fst e with
    | Create r key | Upsert r key =>
        if String.eqb key k then
          match json_Decode (Body r) with
          | Some value => Some (Wrote value)
          | None => None
          end
        else None
    | Delete r key => if String.eqb key k then Some Removed else None
    | Read _ _ => None
    end
  else None.

(** The most recent successful mutation of [k] in a history. *)
Fixpoint last_mutation (k : string) (hist : list (Op ReadCloser * ResponseWriter))
  : option Mutation :=
  match hist with
  | [] => None
  | e :: hist' =>
      match last_mutation k hist' with
      | Some m => Some m
      | None => mutation_of k e
      end
  end.

(** What Read is expected to find: the value of the most recent
    successful mutation, nothing when that was a Delete or there was
    none. *)
Definition expected_value (k : string) (hist : list (Op ReadCloser * ResponseWriter))
  : option Value :=
  match last_mutation k hist with
  | Some (Wrote value) => Some value
  | Some Removed | None => None
  end.

(** [k] was inserted by a successful Create or Upsert and not removed by
    a successful Delete afterwards. *)
Definition inserted_not_removed (k : string) (hist : list (Op ReadCloser * ResponseWriter))
  : Prop :=
  exists before e after value,
    hist = (before ++ e :: after)%list /\
    mutation_of k e = Some (Wrote value) /\
    Forall (fun e' => mutation_of k e' <> Some Removed) after.

End Sequences.

(** What a handler does to the store and to the response does not depend
    on the effects recorded before it started. *)
Definition trace_blind (h : M unit) : Prop :=
  forall sto rw t,
    storage (snd (h (mkState sto rw t))) = storage (snd (h (mkState sto rw [])))
    /\ w (snd (h (mkState sto rw t))) = w (snd (h (mkState sto rw []))).

(** ** Critical sections

    The events a run performs while the mutex is held, the lock
    operations themselves left out. *)

Fixpoint under_lock (held : bool) (t : list Event) : list Event :=
  match t with
  | [] => []
  | EvLock :: t' | EvRLock :: t' => under_lock true t'
  | EvUnlock :: t' | EvRUnlock :: t' => under_lock false t'
  | e :: t' => if held then e :: under_lock held t' else under_lock held t'
  end.

(** Whether the mutex is held once the run is over. *)
Fixpoint held_after (held : bool) (t : list Event) : bool :=
  match t with
  | [] => held
  | EvLock :: t' | EvRLock :: t' => held_after true t'
  | EvUnlock :: t' | EvRUnlock :: t' => held_after false t'
  | _ :: t' => held_after held t'
  end.

Definition is_map_op (e : Event) : bool :=
  match e with
  | EvMapLookup _ | EvMapStore _ _ | EvMapDelete _ => true
  | _ => false
  end.

(** A run whose critical sections consist of map operations only. *)
Definition map_work_only (t : list Event) : bool :=
  forallb is_map_op (under_lock false t).

(** ** Concrete requests

    For examples the request body is given by what it decodes to: [Some v]
    is a body holding the JSON text of [v], [None] a body that is not
    JSON.  The example encoder answers with one fixed text. *)

Definition decoded_body : Type := option Value.
Definition decode_example (b : decoded_body) : option Value := b.
Definition marshal_example (v : Value) : option string := Some "{...}".

Definition foo_bar : Value := VObject {[ "foo" := VString "bar" ]}.
Definition a_1 : Value := VObject {[ "a" := VNumber 1%float ]}.

Definition post (path : string) (b : decoded_body) : Request decoded_body :=
  mkRequest MethodPost path b.
Definition put (path : string) (b : decoded_body) : Request decoded_body :=
  mkRequest MethodPut path b.
Definition get (path : string) : Request decoded_body :=
  mkRequest MethodGet path None.
Definition del (path : string) : Request decoded_body :=
  mkRequest MethodDelete path None.

(** ** The mutex protocol

    The state of the [sync.RWMutex] as the goroutine serving a request
    leaves it. *)

Inductive MutexState : Type := Unlocked | WriteLocked | ReadLocked.

(** A run follows the protocol when it locks only a mutex it does not
    hold (a second [Lock] or [RLock] by the same goroutine blocks for
    ever), calls [Unlock] only after [Lock] and [RUnlock] only after
    [RLock] (anything else is a fatal error of the runtime).  The result is
    the state the run leaves the mutex in, [None] when the run breaks the
    protocol. *)
Fixpoint mutex_protocol (m : MutexState) (t : list Event) : option MutexState :=
  match t with
  | [] => Some m
  | EvLock :: t' =>
      match m with Unlocked => mutex_protocol WriteLocked t' | _ => None end
  | EvUnlock :: t' =>
      match m with WriteLocked => mutex_protocol Unlocked t' | _ => None end
  | EvRLock :: t' =>
      match m with Unlocked => mutex_protocol ReadLocked t' | _ => None end
  | EvRUnlock :: t' =>
      match m with ReadLocked => mutex_protocol Unlocked t' | _ => None end
  | _ :: t' => mutex_protocol m t'
  end.

(** Every access to the [storage] map happens with the mutex held, and
    every store or delete with the mutex held for writing. *)
Fixpoint guarded_access (m : MutexState) (t : list Event) : bool :=
  match t with
  | [] => true
  | EvLock :: t' => guarded_access WriteLocked t'
  | EvRLock :: t' => guarded_access ReadLocked t'
  | EvUnlock :: t' | EvRUnlock :: t' => guarded_access Unlocked t'
  | EvMapLookup _ :: t' =>
      match m with Unlocked => false | _ => guarded_access m t' end
  | EvMapStore _ _ :: t' | EvMapDelete _ :: t' =>
      match m with WriteLocked => guarded_access m t' | _ => false end
  | _ :: t' => guarded_access m t'
  end.

Definition is_response (e : Event) : bool :=
  match e with
  | EvResponse => true
  | _ => false
  end.

(** The status codes the server ever answers with. *)
Definition statuses : list Z :=
  [ StatusOK; StatusCreated; StatusNoContent; StatusBadRequest;
    StatusNotFound; StatusMethodNotAllowed; StatusConflict;
    StatusInternalServerError ].

(** ** Log lines and the order of effects *)

(** The log lines of a run, in order. *)
Definition logs (t : list Event) : list (Level * string) :=
  omap (fun e => match e with EvLog lvl msg => Some (lvl, msg) | _ => None end) t.

(** Once the response is written, the run neither touches the map nor
    reads the request body. *)
Fixpoint settled_at_response (answered : bool) (t : list Event) : bool :=
  match t with
  | [] => true
  | EvResponse :: t' => settled_at_response true t'
  | (EvMapLookup _ | EvMapStore _ _ | EvMapDelete _ | EvDecodeBody) :: t' =>
      negb answered && settled_at_response answered t'
  | _ :: t' => settled_at_response answered t'
  end.

(** ** Write requests *)

(** A POST or PUT request. *)
Definition is_write {ReadCloser : Type} (r : Request ReadCloser) : bool :=
  String.eqb (Method r) MethodPost || String.eqb (Method r) MethodPut.

(** [r] is a POST or PUT request on the key [k] whose body decodes to
    [v]. *)
Definition writes {ReadCloser : Type}
    (json_Decode : ReadCloser -> option Value)
    (k : string) (v : Value) (r : Request ReadCloser) : Prop :=
  is_write r = true /\
  TrimPrefix (URL_Path r) "/storage/" = k /\
  json_Decode (Body r) = Some v.

(** * Properties *)

Section Properties.

Context {ReadCloser : Type}.
Variable json_Decode : ReadCloser -> option Value.
Variable json_Marshal : Value -> option string.

Implicit Types (r : Request ReadCloser) (key k : string)
  (sto : gmap string Value) (value v : Value) (o : Op ReadCloser).

Ltac run_handler :=
  unfold serve, setHandler, putHandler, getHandler, deleteHandler, defer,
    decode_body, storage_lookup, storage_store, storage_delete, mutex_Lock,
    mutex_Unlock, mutex_RLock, mutex_RUnlock, logger_Info, logger_Warn,
    logger_Error, http_Error, w_WriteHeader, w_Write, w_Header_Set, bind, ret,
    emit, modify_storage, modify_w, get_storage;
  cbn [fst snd storage w trace app].

(** ** One run per path through each handler *)

Lemma setHandler_present r key sto v0 :
  sto !! key = Some v0 ->
  serve (setHandler json_Decode r key) sto =
    {| storage := sto;
       w := error_reply "Resource already exists" StatusConflict;
       trace := [EvLock; EvMapLookup key;
                 EvLog WarnLevel "Resource already exists"; EvResponse;
                 EvUnlock] |}.
Proof. intros H. run_handler. rewrite H. reflexivity. Qed.

Lemma setHandler_absent_malformed r key sto :
  sto !! key = None ->
  json_Decode (Body r) = None ->
  serve (setHandler json_Decode r key) sto =
    {| storage := sto;
       w := error_reply "Invalid request body" StatusBadRequest;
       trace := [EvLock; EvMapLookup key; EvDecodeBody;
                 EvLog ErrorLevel "Failed to decode request body"; EvResponse;
                 EvUnlock] |}.
Proof. intros H Hd. run_handler. rewrite H. cbn. rewrite Hd. reflexivity. Qed.

Lemma setHandler_absent_decoded r key sto value :
  sto !! key = None ->
  json_Decode (Body r) = Some value ->
  serve (setHandler json_Decode r key) sto =
    {| storage := <[key := value]> sto;
       w := status_reply StatusCreated;
       trace := [EvLock; EvMapLookup key; EvDecodeBody; EvMapStore key value;
                 EvLog InfoLevel "Data stored successfully"; EvResponse;
                 EvUnlock] |}.
Proof. intros H Hd. run_handler. rewrite H. cbn. rewrite Hd. reflexivity. Qed.

Lemma putHandler_malformed r key sto :
  json_Decode (Body r) = None ->
  serve (putHandler json_Decode r key) sto =
    {| storage := sto;
       w := error_reply "Invalid request body" StatusBadRequest;
       trace := [EvDecodeBody;
                 EvLog ErrorLevel "Failed to decode request body";
                 EvResponse] |}.
Proof. intros Hd. run_handler. rewrite Hd. reflexivity. Qed.

Lemma putHandler_decoded r key sto value :
  json_Decode (Body r) = Some value ->
  serve (putHandler json_Decode r key) sto =
    {| storage := <[key := value]> sto;
       w := status_reply StatusOK;
       trace := [EvDecodeBody; EvLock; EvMapStore key value; EvUnlock;
                 EvLog InfoLevel "Value updated"; EvResponse] |}.
Proof. intros Hd. run_handler. rewrite Hd. reflexivity. Qed.

Lemma getHandler_absent r key sto :
  sto !! key = None ->
  serve (getHandler json_Marshal r key) sto =
    {| storage := sto;
       w := error_reply "No value found" StatusNotFound;
       trace := [EvRLock; EvMapLookup key; EvRUnlock;
                 EvLog WarnLevel "No value found"; EvResponse] |}.
Proof. intros H. run_handler. rewrite H. reflexivity. Qed.

Lemma getHandler_present r key sto value jsonData :
  sto !! key = Some value ->
  json_Marshal (VObject {[ key := value ]}) = Some jsonData ->
  serve (getHandler json_Marshal r key) sto =
    {| storage := sto;
       w := json_reply jsonData;
       trace := [EvRLock; EvMapLookup key; EvRUnlock;
                 EvLog InfoLevel "Data successfully found and returned";
                 EvResponse] |}.
Proof. intros H Hm. run_handler. rewrite H. cbn. rewrite Hm. reflexivity. Qed.

Lemma getHandler_unencodable r key sto value :
  sto !! key = Some value ->
  json_Marshal (VObject {[ key := value ]}) = None ->
  serve (getHandler json_Marshal r key) sto =
    {| storage := sto;
       w := error_reply "Failed to marshal JSON" StatusInternalServerError;
       trace := [EvRLock; EvMapLookup key; EvRUnlock;
                 EvLog ErrorLevel "Failed to marshal JSON"; EvResponse] |}.
Proof. intros H Hm. run_handler. rewrite H. cbn. rewrite Hm. reflexivity. Qed.

Lemma deleteHandler_absent r key sto :
  sto !! key = None ->
  serve (deleteHandler r key) sto =
    {| storage := sto;
       w := error_reply "Data not found" StatusNotFound;
       trace := [EvLock; EvMapLookup key; EvLog WarnLevel "Data not found";
                 EvResponse; EvUnlock] |}.
Proof. intros H. run_handler. rewrite H. reflexivity. Qed.

Lemma deleteHandler_present r key sto v0 :
  sto !! key = Some v0 ->
  serve (deleteHandler r key) sto =
    {| storage := delete key sto;
       w := status_reply StatusNoContent;
       trace := [EvLock; EvMapLookup key; EvMapDelete key;
                 EvLog InfoLevel "Data deleted successfully"; EvResponse;
                 EvUnlock] |}.
Proof. intros H. run_handler. rewrite H. reflexivity. Qed.

(** [getHandler] leaves the store as it found it. *)
Lemma getHandler_storage r key sto :
  storage (serve (getHandler json_Marshal r key) sto) = sto.
Proof.
  destruct (sto !! key) as [value|] eqn:H.
  - destruct (json_Marshal (VObject {[ key := value ]})) as [d|] eqn:Hm.
    + by rewrite (getHandler_present r key sto value d).
    + by rewrite (getHandler_unencodable r key sto value).
  - by rewrite getHandler_absent.
Qed.

(** ** The effect of each handler on the store *)

Lemma setHandler_storage r key sto :
  storage (serve (setHandler json_Decode r key) sto) =
    match sto !! key, json_Decode (Body r) with
    | None, Some value => <[key := value]> sto
    | _, _ => sto
    end.
Proof.
  destruct (sto !! key) as [v0|] eqn:H.
  - by rewrite (setHandler_present r key sto v0).
  - destruct (json_Decode (Body r)) as [value|] eqn:Hd.
    + by rewrite (setHandler_absent_decoded r key sto value).
    + by rewrite setHandler_absent_malformed.
Qed.

Lemma putHandler_storage r key sto :
  storage (serve (putHandler json_Decode r key) sto) =
    match json_Decode (Body r) with
    | Some value => <[key := value]> sto
    | None => sto
    end.
Proof.
  destruct (json_Decode (Body r)) as [value|] eqn:Hd.
  - by rewrite (putHandler_decoded r key sto value).
  - by rewrite putHandler_malformed.
Qed.

Lemma deleteHandler_storage r key sto :
  storage (serve (deleteHandler r key) sto) = delete key sto.
Proof.
  destruct (sto !! key) as [v0|] eqn:H.
  - by rewrite (deleteHandler_present r key sto v0).
  - rewrite deleteHandler_absent by done. cbn. by rewrite delete_id.
Qed.

(** ** Create *)

(** C1. Create is insert-if-absent.  On a store without [key], a Create
    whose body decodes to [value] answers 201 Created, and a Read of [key]
    afterwards returns [value] (its JSON encoding, with status 200).  On a
    store that holds [v0] under [key], Create answers 409 Conflict
    (AlreadyExists) whatever the body, the store is the same afterwards and
    a Read of [key] still returns [v0].  This holds for every key, the
    non-empty ones in particular. *)
Theorem create_insert_if_absent r r' key sto :
  (forall value,
      sto !! key = None ->
      json_Decode (Body r) = Some value ->
      let st := serve (setHandler json_Decode r key) sto in
      Code (w st) = StatusCreated /\
      storage st !! key = Some value /\
      forall jsonData,
        json_Marshal (VObject {[ key := value ]}) = Some jsonData ->
        w (serve (getHandler json_Marshal r' key) (storage st))
          = json_reply jsonData) /\
  (forall v0,
      sto !! key = Some v0 ->
      let st := serve (setHandler json_Decode r key) sto in
      Code (w st) = StatusConflict /\
      storage st = sto /\
      forall jsonData,
        json_Marshal (VObject {[ key := v0 ]}) = Some jsonData ->
        w (serve (getHandler json_Marshal r' key) (storage st))
          = json_reply jsonData).
Proof.
  split.
  - intros value Habs Hdec st. subst st.
    rewrite (setHandler_absent_decoded r key sto value Habs Hdec).
    cbn [storage w]. split; [reflexivity|].
    split; [apply lookup_insert_eq|].
    intros jsonData Hm.
    rewrite (getHandler_present r' key _ value jsonData);
      [reflexivity | apply lookup_insert_eq | exact Hm].
  - intros v0 Hpres st. subst st.
    rewrite (setHandler_present r key sto v0 Hpres).
    cbn [storage w]. repeat split.
    intros jsonData Hm.
    by rewrite (getHandler_present r' key sto v0 jsonData).
Qed.

(** ** Upsert *)

(** C2. Upsert is an unconditional insert-or-replace.  Whatever the store
    held, an Upsert whose body decodes to a value answers 200 OK and
    leaves that value under [key]; after two Upserts the second value is
    the one stored and the one a Read returns.  No Upsert, well-formed or
    not, ever answers 404 (NotFound) or 409 (AlreadyExists). *)
Theorem upsert_insert_or_replace r1 r2 r' key sto v1 v2 :
  json_Decode (Body r1) = Some v1 ->
  json_Decode (Body r2) = Some v2 ->
  let st1 := serve (putHandler json_Decode r1 key) sto in
  let st2 := serve (putHandler json_Decode r2 key) (storage st1) in
  Code (w st1) = StatusOK /\
  storage st1 !! key = Some v1 /\
  Code (w st2) = StatusOK /\
  storage st2 !! key = Some v2 /\
  (forall jsonData,
      json_Marshal (VObject {[ key := v2 ]}) = Some jsonData ->
      w (serve (getHandler json_Marshal r' key) (storage st2))
        = json_reply jsonData) /\
  (forall r sto0,
      Code (w (serve (putHandler json_Decode r key) sto0)) <> StatusNotFound /\
      Code (w (serve (putHandler json_Decode r key) sto0)) <> StatusConflict).
Proof.
  intros Hd1 Hd2 st1 st2. subst st1 st2.
  rewrite (putHandler_decoded r1 key sto v1 Hd1). cbn [storage w].
  rewrite (putHandler_decoded r2 key _ v2 Hd2). cbn [storage w].
  split; [reflexivity|]. split; [apply lookup_insert_eq|].
  split; [reflexivity|]. split; [apply lookup_insert_eq|].
  split.
  - intros jsonData Hm.
    rewrite (getHandler_present r' key _ v2 jsonData);
      [reflexivity | apply lookup_insert_eq | exact Hm].
  - intros r sto0.
    destruct (json_Decode (Body r)) as [value|] eqn:Hd.
    + rewrite (putHandler_decoded r key sto0 value Hd). by split.
    + rewrite (putHandler_malformed r key sto0 Hd). by split.
Qed.

(** ** Delete *)

(** C4. Delete is remove-if-present.  On a store that holds [key], Delete
    answers 204 No Content and a Read of [key] afterwards answers 404
    (NotFound).  On a store without [key], Delete answers 404 (NotFound)
    and the store is the same afterwards. *)
Theorem delete_remove_if_present r r' key sto :
  (forall v0,
      sto !! key = Some v0 ->
      let st := serve (deleteHandler r key) sto in
      Code (w st) = StatusNoContent /\
      storage st !! key = None /\
      w (serve (getHandler json_Marshal r' key) (storage st))
        = error_reply "No value found" StatusNotFound) /\
  (sto !! key = None ->
      let st := serve (deleteHandler r key) sto in
      Code (w st) = StatusNotFound /\
      storage st = sto).
Proof.
  split.
  - intros v0 Hpres st. subst st.
    rewrite (deleteHandler_present r key sto v0 Hpres). cbn [storage w].
    split; [reflexivity|]. split; [apply lookup_delete_eq|].
    rewrite getHandler_absent; [reflexivity | apply lookup_delete_eq].
  - intros Habs st. subst st.
    rewrite (deleteHandler_absent r key sto Habs). by split.
Qed.

(** ** Frame *)

Lemma handler_frame o k' sto :
  k' <> op_key o ->
  storage (serve (handler_of json_Decode json_Marshal o) sto) !! k' = sto !! k'.
Proof.
  intros Hne.
  destruct o as [r key|r key|r key|r key]; cbn [handler_of op_key] in *.
  - rewrite setHandler_storage.
    destruct (sto !! key), (json_Decode (Body r)); try reflexivity.
    by rewrite lookup_insert_ne.
  - rewrite putHandler_storage.
    destruct (json_Decode (Body r)); try reflexivity.
    by rewrite lookup_insert_ne.
  - by rewrite getHandler_storage.
  - rewrite deleteHandler_storage. by rewrite lookup_delete_ne.
Qed.

(** C9. Frame property.  An operation invoked with key [op_key o] leaves
    the entry of every other key as it was, and Read leaves the whole
    store as it was. *)
Theorem frame_other_keys o k' sto :
  k' <> op_key o ->
  storage (serve (handler_of json_Decode json_Marshal o) sto) !! k' = sto !! k' /\
  (forall r key, storage (serve (getHandler json_Marshal r key) sto) = sto).
Proof.
  intros Hne. split; [by apply handler_frame | intros; apply getHandler_storage].
Qed.

(** ** Null values *)

(** C10. A stored null is not absence.  After a Create (on a store
    without [key]) or an Upsert whose body decodes to [null], [key] is
    present with the null value: a Read returns it and does not answer
    404, a further Create answers 409 (AlreadyExists), and a Delete
    answers 204. *)
Theorem null_is_present r r1 r2 r3 key sto st :
  json_Decode (Body r) = Some VNull ->
  (sto !! key = None /\ st = serve (setHandler json_Decode r key) sto) \/
    st = serve (putHandler json_Decode r key) sto ->
  storage st !! key = Some VNull /\
  (forall jsonData,
      json_Marshal (VObject {[ key := VNull ]}) = Some jsonData ->
      w (serve (getHandler json_Marshal r1 key) (storage st))
        = json_reply jsonData) /\
  Code (w (serve (getHandler json_Marshal r1 key) (storage st)))
    <> StatusNotFound /\
  Code (w (serve (setHandler json_Decode r2 key) (storage st)))
    = StatusConflict /\
  Code (w (serve (deleteHandler r3 key) (storage st))) = StatusNoContent.
Proof.
  intros Hd Hst.
  assert (Hsto : storage st = <[key := VNull]> sto).
  { destruct Hst as [[Habs ->] | ->].
    - by rewrite (setHandler_absent_decoded r key sto VNull).
    - by rewrite (putHandler_decoded r key sto VNull). }
  rewrite Hsto.
  pose proof (lookup_insert_eq sto key VNull) as Hl.
  split; [exact Hl|]. split.
  { intros jsonData Hm. by rewrite (getHandler_present r1 key _ VNull jsonData). }
  split.
  { destruct (json_Marshal (VObject {[ key := VNull ]})) as [d|] eqn:Hm.
    - by rewrite (getHandler_present r1 key _ VNull d).
    - by rewrite (getHandler_unencodable r1 key _ VNull). }
  split.
  - by rewrite (setHandler_present r2 key _ VNull).
  - by rewrite (deleteHandler_present r3 key _ VNull).
Qed.

(** ** Malformed bodies *)

(** C3, as the code has it.  A write whose body fails to decode leaves
    the store as it was.  Upsert decodes first: it answers 400
    (InvalidValue) and its run contains no map operation.  Create looks
    the key up first: it answers 400 (InvalidValue) when the key is absent
    and 409 (AlreadyExists) when the key is present. *)
Theorem malformed_write_leaves_store r key sto :
  json_Decode (Body r) = None ->
  let stu := serve (putHandler json_Decode r key) sto in
  let stc := serve (setHandler json_Decode r key) sto in
  storage stu = sto /\
  Code (w stu) = StatusBadRequest /\
  filter is_map_op (trace stu) = [] /\
  storage stc = sto /\
  take 2 (trace stc) = [EvLock; EvMapLookup key] /\
  (sto !! key = None -> Code (w stc) = StatusBadRequest) /\
  (is_Some (sto !! key) -> Code (w stc) = StatusConflict).
Proof.
  intros Hd stu stc. subst stu stc.
  rewrite (putHandler_malformed r key sto Hd). cbn [storage w trace].
  do 3 (split; [reflexivity|]).
  destruct (sto !! key) as [v0|] eqn:H.
  - rewrite (setHandler_present r key sto v0 H). cbn [storage w trace].
    do 2 (split; [reflexivity|]). split; [discriminate | reflexivity].
  - rewrite (setHandler_absent_malformed r key sto H Hd). cbn [storage w trace].
    do 2 (split; [reflexivity|]). split; [reflexivity | by intros [? ?]].
Qed.

(** ** Critical sections *)

(** [putHandler] and [getHandler] keep their critical section to the map:
    whatever the request and the store, at most one effect happens while
    they hold the mutex, and it is a map operation. *)
Lemma short_critical_sections r key sto :
  let stu := serve (putHandler json_Decode r key) sto in
  let stg := serve (getHandler json_Marshal r key) sto in
  (length (under_lock false (trace stu)) <= 1 /\
   map_work_only (trace stu) = true) /\
  (length (under_lock false (trace stg)) <= 1 /\
   map_work_only (trace stg) = true).
Proof.
  intros stu stg. subst stu stg. split.
  - destruct (json_Decode (Body r)) as [value|] eqn:Hd.
    + rewrite (putHandler_decoded r key sto value Hd). cbn. split; [lia|done].
    + rewrite (putHandler_malformed r key sto Hd). cbn. split; [lia|done].
  - destruct (sto !! key) as [value|] eqn:H.
    + destruct (json_Marshal (VObject {[ key := value ]})) as [d|] eqn:Hm.
      * rewrite (getHandler_present r key sto value d H Hm). cbn.
        split; [lia|done].
      * rewrite (getHandler_unencodable r key sto value H Hm). cbn.
        split; [lia|done].
    + rewrite (getHandler_absent r key sto H). cbn. split; [lia|done].
Qed.

(** Where each handler holds the mutex.  [putHandler] and [getHandler] do
    map work only while they hold it, [putHandler] decodes the body
    before anything else, and every handler has released the mutex when
    it returns.  [setHandler] and [deleteHandler] take the mutex in their
    first statement and release it by the deferred Unlock: their run is a
    Lock, effects under the lock, and the Unlock; the response is written
    under the lock, and so is the decoding of the body when [setHandler]
    finds the key absent. *)
Theorem lock_discipline r key sto :
  let stc := serve (setHandler json_Decode r key) sto in
  let stu := serve (putHandler json_Decode r key) sto in
  let stg := serve (getHandler json_Marshal r key) sto in
  let std := serve (deleteHandler r key) sto in
  (map_work_only (trace stu) = true /\
   map_work_only (trace stg) = true /\
   head (trace stu) = Some EvDecodeBody) /\
  (held_after false (trace stc) = false /\
   held_after false (trace stu) = false /\
   held_after false (trace stg) = false /\
   held_after false (trace std) = false) /\
  (trace stc = (EvLock :: under_lock false (trace stc) ++ [EvUnlock])%list /\
   trace std = (EvLock :: under_lock false (trace std) ++ [EvUnlock])%list /\
   In EvResponse (under_lock false (trace stc)) /\
   In EvResponse (under_lock false (trace std)) /\
   (sto !! key = None -> In EvDecodeBody (under_lock false (trace stc)))).
Proof.
  intros stc stu stg std.
  assert (Hu : map_work_only (trace stu) = true /\
               head (trace stu) = Some EvDecodeBody /\
               held_after false (trace stu) = false).
  { subst stu. destruct (json_Decode (Body r)) as [value|] eqn:Hd.
    - by rewrite (putHandler_decoded r key sto value Hd).
    - by rewrite (putHandler_malformed r key sto Hd). }
  assert (Hg : map_work_only (trace stg) = true /\
               held_after false (trace stg) = false).
  { subst stg. destruct (sto !! key) as [value|] eqn:H.
    - destruct (json_Marshal (VObject {[ key := value ]})) as [d|] eqn:Hm.
      + by rewrite (getHandler_present r key sto value d H Hm).
      + by rewrite (getHandler_unencodable r key sto value H Hm).
    - by rewrite (getHandler_absent r key sto H). }
  assert (Hdel : held_after false (trace std) = false /\
                 trace std = (EvLock :: under_lock false (trace std) ++ [EvUnlock])%list /\
                 In EvResponse (under_lock false (trace std))).
  { subst std. destruct (sto !! key) as [v0|] eqn:H.
    - rewrite (deleteHandler_present r key sto v0 H). cbn. tauto.
    - rewrite (deleteHandler_absent r key sto H). cbn. tauto. }
  assert (Hc : held_after false (trace stc) = false /\
               trace stc = (EvLock :: under_lock false (trace stc) ++ [EvUnlock])%list /\
               In EvResponse (under_lock false (trace stc)) /\
               (sto !! key = None -> In EvDecodeBody (under_lock false (trace stc)))).
  { subst stc. destruct (sto !! key) as [v0|] eqn:H.
    - rewrite (setHandler_present r key sto v0 H). cbn.
      repeat split; try tauto. discriminate.
    - destruct (json_Decode (Body r)) as [value|] eqn:Hd.
      + rewrite (setHandler_absent_decoded r key sto value H Hd). cbn. tauto.
      + rewrite (setHandler_absent_malformed r key sto H Hd). cbn. tauto. }
  tauto.
Qed.

(** ** The dispatcher *)

Lemma handler_of_trace_blind o :
  trace_blind (handler_of json_Decode json_Marshal o).
Proof.
  intros sto rw t.
  destruct o as [r key|r key|r key|r key]; cbn [handler_of]; run_handler.
  - destruct (sto !! key); cbn; [done|].
    by destruct (json_Decode (Body r)).
  - by destruct (json_Decode (Body r)).
  - destruct (sto !! key) as [value|]; cbn; [|done].
    by destruct (json_Marshal (VObject {[ key := value ]})).
  - by destruct (sto !! key).
Qed.

Lemma logged_outcome (h : M unit) a b sto :
  trace_blind h ->
  let st := serve (logger_Info a ;;; h ;;; logger_Info b) sto in
  storage st = storage (serve h sto) /\ w st = w (serve h sto).
Proof.
  intros Hh st. subst st.
  destruct (Hh sto NewRecorder [EvLog InfoLevel a]) as [Hs Hw].
  unfold serve, bind, logger_Info, emit in *. cbn [storage w trace app] in *.
  destruct (h {| storage := sto; w := NewRecorder;
                 trace := [EvLog InfoLevel a] |}) as [[] st1].
  cbn [snd storage w] in *. by split.
Qed.

(** The dispatcher runs the operation the verb and the path name. *)
Lemma storageHandler_operation r sto o :
  operation r = Some o ->
  serve_request json_Decode json_Marshal sto r
    = step json_Decode json_Marshal sto o.
Proof.
  unfold operation, serve_request, step, storageHandler.
  set (key := TrimPrefix (URL_Path r) "/storage/").
  destruct (String.eqb key ""); [discriminate|].
  intros Ho.
  repeat match type of Ho with
         | (if ?c then _ else _) = _ => destruct c
         end;
    try discriminate; injection Ho as <-; cbv iota;
    match goal with
    | |- _ = (storage (serve ?h sto), _) =>
        destruct (logged_outcome h "Received request" "Request handled" sto
                    (handler_of_trace_blind _)) as [H1 H2];
        cbn [handler_of] in H1, H2; rewrite H1, H2; reflexivity
    end.
Qed.

(** A request that names no operation leaves the store as it was. *)
Lemma storageHandler_rejected r sto :
  operation r = None ->
  fst (serve_request json_Decode json_Marshal sto r) = sto.
Proof.
  unfold operation, serve_request, storageHandler.
  set (key := TrimPrefix (URL_Path r) "/storage/").
  destruct (String.eqb key ""); [reflexivity|].
  intros Ho.
  repeat match type of Ho with
         | (if ?c then _ else _) = _ => destruct c
         end;
    try discriminate.
  reflexivity.
Qed.

Lemma operation_key r o :
  operation r = Some o ->
  op_key o = TrimPrefix (URL_Path r) "/storage/" /\ op_key o <> "".
Proof.
  unfold operation.
  set (key := TrimPrefix (URL_Path r) "/storage/").
  destruct (String.eqb key "") eqn:Hk; [discriminate|].
  apply String.eqb_neq in Hk.
  intros Ho.
  repeat match type of Ho with
         | (if ?c then _ else _) = _ => destruct c
         end;
    try discriminate; injection Ho as <-; by split.
Qed.

Lemma serve_request_empty_key r sto :
  sto !! "" = None ->
  fst (serve_request json_Decode json_Marshal sto r) !! "" = None.
Proof.
  intros Hsto.
  destruct (operation r) as [o|] eqn:Ho.
  - rewrite (storageHandler_operation r sto o Ho).
    destruct (operation_key r o Ho) as [_ Hne].
    unfold step. cbn [fst]. rewrite handler_frame; [exact Hsto | congruence].
  - by rewrite storageHandler_rejected.
Qed.

Lemma serve_all_empty_key reqs sto :
  sto !! "" = None ->
  fst (serve_all json_Decode json_Marshal reqs sto) !! "" = None.
Proof.
  revert sto. induction reqs as [|r reqs IH]; intros sto Hsto; [exact Hsto|].
  cbn [serve_all].
  pose proof (serve_request_empty_key r sto Hsto) as H1.
  destruct (serve_request json_Decode json_Marshal sto r) as [sto1 rw].
  specialize (IH sto1 H1).
  destruct (serve_all json_Decode json_Marshal reqs sto1) as [sto2 rws].
  exact IH.
Qed.

(** C6. The empty-string key is never stored.  A request whose extracted
    key is empty is answered 400 by the dispatcher before any lock, map
    access or decoding: its only effect is the response.  Hence, whatever
    requests the dispatcher has served since the store was created empty,
    the store has no entry for the empty key. *)
Theorem empty_key_never_stored reqs :
  fst (serve_all json_Decode json_Marshal reqs ∅) !! "" = None /\
  (forall r sto,
      TrimPrefix (URL_Path r) "/storage/" = "" ->
      serve (storageHandler json_Decode json_Marshal r) sto =
        {| storage := sto;
           w := error_reply "Required param key is empty" StatusBadRequest;
           trace := [EvResponse] |}).
Proof.
  split.
  - apply serve_all_empty_key. apply lookup_empty.
  - intros r sto Hk. unfold storageHandler. rewrite Hk. reflexivity.
Qed.

(** ** Histories *)

Lemma run_cons o ops sto :
  run json_Decode json_Marshal (o :: ops) sto =
    let s1 := step json_Decode json_Marshal sto o in
    let s2 := run json_Decode json_Marshal ops (fst s1) in
    (fst s2, (o, snd s1) :: snd s2).
Proof.
  cbn [run]. destruct (step json_Decode json_Marshal sto o) as [sto1 rw].
  cbn [fst snd]. by destruct (run json_Decode json_Marshal ops sto1).
Qed.

(** One operation changes the entry of [k] exactly as the spec reads its
    response. *)
Lemma step_mutation o k sto :
  let s1 := step json_Decode json_Marshal sto o in
  fst s1 !! k =
    match mutation_of json_Decode k (o, snd s1) with
    | Some (Wrote value) => Some value
    | Some Removed => None
    | None => sto !! k
    end.
Proof.
  unfold step, mutation_of. cbn [fst snd].
  destruct o as [r key|r key|r key|r key]; cbn [handler_of].
  - destruct (sto !! key) as [v0|] eqn:H.
    + by rewrite (setHandler_present r key sto v0 H).
    + destruct (json_Decode (Body r)) as [value|] eqn:Hd.
      * rewrite (setHandler_absent_decoded r key sto value H Hd).
        cbn [storage w]. change (successful _) with true. cbv iota.
        destruct (String.eqb_spec key k) as [->|Hne].
        -- apply lookup_insert_eq.
        -- by apply lookup_insert_ne.
      * by rewrite (setHandler_absent_malformed r key sto H Hd).
  - destruct (json_Decode (Body r)) as [value|] eqn:Hd.
    + rewrite (putHandler_decoded r key sto value Hd).
      cbn [storage w]. change (successful _) with true. cbv iota.
      destruct (String.eqb_spec key k) as [->|Hne].
      * apply lookup_insert_eq.
      * by apply lookup_insert_ne.
    + by rewrite (putHandler_malformed r key sto Hd).
  - rewrite getHandler_storage. by destruct (successful _).
  - destruct (sto !! key) as [v0|] eqn:H.
    + rewrite (deleteHandler_present r key sto v0 H).
      cbn [storage w]. change (successful _) with true. cbv iota.
      destruct (String.eqb_spec key k) as [->|Hne].
      * apply lookup_delete_eq.
      * by apply lookup_delete_ne.
    + by rewrite (deleteHandler_absent r key sto H).
Qed.

Lemma run_last_mutation ops k sto :
  let s := run json_Decode json_Marshal ops sto in
  fst s !! k =
    match last_mutation json_Decode k (snd s) with
    | Some (Wrote value) => Some value
    | Some Removed => None
    | None => sto !! k
    end.
Proof.
  revert sto. induction ops as [|o ops IH]; intros sto; [reflexivity|].
  rewrite run_cons. cbn [fst snd last_mutation].
  rewrite IH.
  destruct (last_mutation json_Decode k _) as [[value|]|]; try reflexivity.
  apply step_mutation.
Qed.

Lemma run_ops ops sto :
  map fst (snd (run json_Decode json_Marshal ops sto)) = ops.
Proof.
  revert sto. induction ops as [|o ops IH]; intros sto; [reflexivity|].
  rewrite run_cons. cbn [fst snd map]. by rewrite IH.
Qed.

Lemma last_mutation_app k (h1 h2 : list (Op ReadCloser * ResponseWriter)) :
  last_mutation json_Decode k (h1 ++ h2) =
    match last_mutation json_Decode k h2 with
    | Some m => Some m
    | None => last_mutation json_Decode k h1
    end.
Proof.
  induction h1 as [|e h1 IH]; cbn [app last_mutation].
  - by destruct (last_mutation json_Decode k h2).
  - rewrite IH. by destruct (last_mutation json_Decode k h2).
Qed.

Lemma last_mutation_None k (h : list (Op ReadCloser * ResponseWriter)) :
  last_mutation json_Decode k h = None ->
  Forall (fun e => mutation_of json_Decode k e <> Some Removed) h.
Proof.
  induction h as [|e h IH]; cbn [last_mutation]; intros Hl; [constructor|].
  destruct (last_mutation json_Decode k h) as [m|]; [discriminate|].
  constructor; [congruence | by apply IH].
Qed.

Lemma last_mutation_not_removed k (h : list (Op ReadCloser * ResponseWriter)) :
  Forall (fun e => mutation_of json_Decode k e <> Some Removed) h ->
  last_mutation json_Decode k h <> Some Removed.
Proof.
  induction 1 as [|e h He Hh IH]; cbn [last_mutation]; [discriminate|].
  destruct (last_mutation json_Decode k h) as [m|]; [exact IH | exact He].
Qed.

(** The most recent successful mutation wrote a value exactly when some
    successful Create or Upsert is followed by no successful Delete. *)
Lemma last_mutation_wrote k (h : list (Op ReadCloser * ResponseWriter)) :
  is_Some (expected_value json_Decode k h)
  <-> inserted_not_removed json_Decode k h.
Proof.
  unfold expected_value, inserted_not_removed. split.
  - induction h as [|e h IH]; cbn [last_mutation]; [by intros [? ?]|].
    destruct (last_mutation json_Decode k h) as [[value|]|] eqn:Hl.
    + intros _. destruct IH as (before & e0 & after & v0 & -> & Hm & Hf);
        [by eexists|].
      by exists (e :: before), e0, after, v0.
    + by intros [? ?].
    + destruct (mutation_of json_Decode k e) as [[value|]|] eqn:Hm;
        [|by intros [? ?]..].
      intros _. exists [], e, h, value. repeat split; [exact Hm|].
      by apply last_mutation_None.
  - intros (before & e & after & value & -> & Hm & Hf).
    rewrite last_mutation_app. cbn [last_mutation].
    pose proof (last_mutation_not_removed k after Hf) as Hnr.
    destruct (last_mutation json_Decode k after) as [[v1|]|];
      [by eexists | congruence | rewrite Hm; by eexists].
Qed.

(** C5. Read reflects the last successful write.  Let any sequence of
    operations be served on the empty store.  A key is then present
    exactly when a successful Create or Upsert of it is followed by no
    successful Delete of it; the stored value is that of the most recent
    successful mutation; a Read answers 404 (NotFound) when that was a
    Delete or there was none, and returns the value written otherwise.
    Read itself, on any store, leaves the store as it was. *)
Theorem read_reflects_last_write ops k :
  let s := run json_Decode json_Marshal ops ∅ in
  map fst (snd s) = ops /\
  (is_Some (fst s !! k) <-> inserted_not_removed json_Decode k (snd s)) /\
  fst s !! k = expected_value json_Decode k (snd s) /\
  (forall r,
      let st := serve (getHandler json_Marshal r k) (fst s) in
      (expected_value json_Decode k (snd s) = None ->
       w st = error_reply "No value found" StatusNotFound) /\
      (forall value jsonData,
          expected_value json_Decode k (snd s) = Some value ->
          json_Marshal (VObject {[ k := value ]}) = Some jsonData ->
          w st = json_reply jsonData)) /\
  (forall r key sto, storage (serve (getHandler json_Marshal r key) sto) = sto).
Proof.
  intros s.
  assert (Hv : fst s !! k = expected_value json_Decode k (snd s)).
  { subst s. rewrite run_last_mutation. unfold expected_value.
    destruct (last_mutation json_Decode k _) as [[value|]|];
      [reflexivity..|apply lookup_empty]. }
  split; [apply run_ops|].
  split; [rewrite Hv; apply last_mutation_wrote|].
  split; [exact Hv|].
  split; [|intros; apply getHandler_storage].
  intros r st. subst st. split.
  - intros He. rewrite He in Hv. by rewrite (getHandler_absent r k _ Hv).
  - intros value jsonData He Hm. rewrite He in Hv.
    by rewrite (getHandler_present r k _ value jsonData Hv Hm).
Qed.

(** ** The scenario of the spec *)

Lemma run_step o ops sto sto1 rw :
  step json_Decode json_Marshal sto o = (sto1, rw) ->
  run json_Decode json_Marshal (o :: ops) sto =
    (fst (run json_Decode json_Marshal ops sto1),
     (o, rw) :: snd (run json_Decode json_Marshal ops sto1)).
Proof.
  intros Hs. cbn [run]. rewrite Hs.
  by destruct (run json_Decode json_Marshal ops sto1).
Qed.

(** Requests that name operations are served as these operations are. *)
Lemma serve_all_operations reqs ops sto :
  Forall2 (fun r o => operation r = Some o) reqs ops ->
  serve_all json_Decode json_Marshal reqs sto =
    (fst (run json_Decode json_Marshal ops sto),
     map snd (snd (run json_Decode json_Marshal ops sto))).
Proof.
  intros Hall. revert sto.
  induction Hall as [|r o reqs ops Ho Hall IH]; intros sto; [reflexivity|].
  cbn [serve_all run]. rewrite (storageHandler_operation r sto o Ho).
  destruct (step json_Decode json_Marshal sto o) as [sto1 rw].
  rewrite IH.
  by destruct (run json_Decode json_Marshal ops sto1).
Qed.

(** C7. The scenario.  On the empty store, with [b1] a body that decodes
    to [{"foo":"bar"}] and [b2] one that decodes to [{"a":1}]: Read of
    [x] answers 404; Create with [b1] answers 201; Read returns
    [{"foo":"bar"}]; Create with [b2] answers 409 and Read still returns
    [{"foo":"bar"}]; Upsert with [b2] answers 200 and Read returns
    [{"a":1}]; Delete answers 204 and Read answers 404; a second Delete
    answers 404.  The store is empty again at the end.  The responses are
    the same whether the handlers are called with key [x] or the
    dispatcher is given the requests on [/storage/x]. *)
Theorem scenario b0 b1 b2 d1 d2 :
  json_Decode b1 = Some foo_bar ->
  json_Decode b2 = Some a_1 ->
  json_Marshal (VObject {[ "x" := foo_bar ]}) = Some d1 ->
  json_Marshal (VObject {[ "x" := a_1 ]}) = Some d2 ->
  let GET := mkRequest MethodGet "/storage/x" b0 in
  let POST b := mkRequest MethodPost "/storage/x" b in
  let PUT b := mkRequest MethodPut "/storage/x" b in
  let DELETE := mkRequest MethodDelete "/storage/x" b0 in
  let replies :=
    [ error_reply "No value found" StatusNotFound;
      status_reply StatusCreated;
      json_reply d1;
      error_reply "Resource already exists" StatusConflict;
      json_reply d1;
      status_reply StatusOK;
      json_reply d2;
      status_reply StatusNoContent;
      error_reply "No value found" StatusNotFound;
      error_reply "Data not found" StatusNotFound ] in
  let ops :=
    [ Read GET "x"; Create (POST b1) "x"; Read GET "x";
      Create (POST b2) "x"; Read GET "x";
      Upsert (PUT b2) "x"; Read GET "x";
      Delete DELETE "x"; Read GET "x"; Delete DELETE "x" ] in
  let s := run json_Decode json_Marshal ops ∅ in
  fst s = ∅ /\
  map snd (snd s) = replies /\
  serve_all json_Decode json_Marshal
    [ GET; POST b1; GET; POST b2; GET; PUT b2; GET; DELETE; GET; DELETE ] ∅
    = (∅, replies).
Proof.
  intros Hb1 Hb2 Hd1 Hd2 GET POST PUT DELETE replies ops s.
  assert (Hrun : fst s = ∅ /\ map snd (snd s) = replies).
  { subst s replies ops.
    erewrite run_step; cycle 1.
    { unfold step. cbn [handler_of].
      rewrite (getHandler_absent GET "x" ∅) by apply lookup_empty.
      reflexivity. }
    cbn [storage w].
    erewrite run_step; cycle 1.
    { unfold step. cbn [handler_of].
      rewrite (setHandler_absent_decoded (POST b1) "x" ∅ foo_bar)
        by first [apply lookup_empty | exact Hb1].
      reflexivity. }
    cbn [storage w].
    erewrite run_step; cycle 1.
    { unfold step. cbn [handler_of].
      rewrite (getHandler_present GET "x" _ foo_bar d1)
        by first [apply lookup_insert_eq | exact Hd1].
      reflexivity. }
    cbn [storage w].
    erewrite run_step; cycle 1.
    { unfold step. cbn [handler_of].
      rewrite (setHandler_present (POST b2) "x" _ foo_bar)
        by apply lookup_insert_eq.
      reflexivity. }
    cbn [storage w].
    erewrite run_step; cycle 1.
    { unfold step. cbn [handler_of].
      rewrite (getHandler_present GET "x" _ foo_bar d1)
        by first [apply lookup_insert_eq | exact Hd1].
      reflexivity. }
    cbn [storage w].
    erewrite run_step; cycle 1.
    { unfold step. cbn [handler_of].
      rewrite (putHandler_decoded (PUT b2) "x" _ a_1) by exact Hb2.
      reflexivity. }
    cbn [storage w].
    erewrite run_step; cycle 1.
    { unfold step. cbn [handler_of].
      rewrite (getHandler_present GET "x" _ a_1 d2)
        by first [apply lookup_insert_eq | exact Hd2].
      reflexivity. }
    cbn [storage w].
    erewrite run_step; cycle 1.
    { unfold step. cbn [handler_of].
      rewrite (deleteHandler_present DELETE "x" _ a_1)
        by apply lookup_insert_eq.
      reflexivity. }
    cbn [storage w].
    erewrite run_step; cycle 1.
    { unfold step. cbn [handler_of].
      rewrite (getHandler_absent GET "x" (delete "x" _))
        by apply lookup_delete_eq.
      reflexivity. }
    cbn [storage w].
    erewrite run_step; cycle 1.
    { unfold step. cbn [handler_of].
      rewrite (deleteHandler_absent DELETE "x" (delete "x" _))
        by apply lookup_delete_eq.
      reflexivity. }
    cbn [storage w run fst snd map]. split; [|reflexivity].
    rewrite insert_insert_eq, delete_insert_eq. apply delete_empty. }
  destruct Hrun as [Hsto Hreplies].
  split; [exact Hsto|]. split; [exact Hreplies|].
  rewrite (serve_all_operations _ ops) by (repeat constructor).
  fold s. by rewrite Hsto, Hreplies.
Qed.

End Properties.

(** * Concrete runs *)

Example TrimPrefix_key : TrimPrefix "/storage/testKey" "/storage/" = "testKey".
Proof. reflexivity. Qed.

Example TrimPrefix_no_key : TrimPrefix "/storage/" "/storage/" = "".
Proof. reflexivity. Qed.

Example TrimPrefix_other_path : TrimPrefix "/other" "/storage/" = "/other".
Proof. reflexivity. Qed.

(** A Create with a malformed body on a key that is present answers 409,
    not 400: the lookup comes before the decoding. *)
Lemma create_malformed_on_present_key :
  let sto : gmap string Value := {[ "x" := foo_bar ]} in
  let r := post "/storage/x" None in
  let st := serve (setHandler decode_example r "x") sto in
  decode_example (Body r) = None /\
  sto !! "x" = Some foo_bar /\
  Code (w st) = StatusConflict /\
  Code (w st) <> StatusBadRequest.
Proof.
  intros sto r st. subst st.
  rewrite (setHandler_present decode_example r "x" sto foo_bar)
    by reflexivity.
  by repeat split.
Qed.

(** C8. The code on a Create of an absent key.  The claim wants map work
    only inside a critical section, with the request body decoded outside
    the lock.  Serving POST [/storage/x] with a well-formed body on the
    empty store, [setHandler] takes the mutex first and releases it last:
    the decoding of the request body, the log line and the writing of the
    response all happen while the mutex is held, so its critical section
    is not map work only. *)
Lemma create_decodes_under_lock :
  let r := post "/storage/x" (Some foo_bar) in
  let t := trace (serve (setHandler decode_example r "x") ∅) in
  t = [EvLock; EvMapLookup "x"; EvDecodeBody; EvMapStore "x" foo_bar;
       EvLog InfoLevel "Data stored successfully"; EvResponse; EvUnlock] /\
  under_lock false t =
    [EvMapLookup "x"; EvDecodeBody; EvMapStore "x" foo_bar;
     EvLog InfoLevel "Data stored successfully"; EvResponse] /\
  map_work_only t = false.
Proof.
  intros r t. subst t.
  rewrite (setHandler_absent_decoded decode_example r "x" ∅ foo_bar)
    by reflexivity.
  by repeat split.
Qed.

(** ** The theorems at concrete inputs *)

Lemma create_insert_if_absent_witness :
  let r := post "/storage/x" (Some foo_bar) in
  let r2 := post "/storage/x" (Some a_1) in
  let st := serve (setHandler decode_example r "x") ∅ in
  let st2 := serve (setHandler decode_example r2 "x") (storage st) in
  ((∅ : gmap string Value) !! "x" = None /\
   decode_example (Body r) = Some foo_bar /\
   Code (w st) = StatusCreated /\
   w (serve (getHandler marshal_example (get "/storage/x") "x") (storage st))
     = json_reply "{...}") /\
  (storage st !! "x" = Some foo_bar /\
   Code (w st2) = StatusConflict /\
   storage st2 = storage st /\
   w (serve (getHandler marshal_example (get "/storage/x") "x") (storage st2))
     = json_reply "{...}").
Proof.
  intros r r2 st st2.
  destruct (create_insert_if_absent decode_example marshal_example
              r (get "/storage/x") "x" ∅) as [Habsent _].
  destruct (Habsent foo_bar eq_refl eq_refl) as (Hcode & Hval & Hread).
  destruct (create_insert_if_absent decode_example marshal_example
              r2 (get "/storage/x") "x" (storage st)) as [_ Hpresent].
  destruct (Hpresent foo_bar Hval) as (Hcode2 & Hsame & Hread2).
  exact (conj
           (conj eq_refl (conj eq_refl (conj Hcode (Hread "{...}" eq_refl))))
           (conj Hval (conj Hcode2 (conj Hsame (Hread2 "{...}" eq_refl))))).
Defined.

Lemma upsert_insert_or_replace_witness :
  let r1 := put "/storage/x" (Some foo_bar) in
  let r2 := put "/storage/x" (Some a_1) in
  let st1 := serve (putHandler decode_example r1 "x") ∅ in
  let st2 := serve (putHandler decode_example r2 "x") (storage st1) in
  decode_example (Body r1) = Some foo_bar /\
  decode_example (Body r2) = Some a_1 /\
  Code (w st1) = StatusOK /\
  Code (w st2) = StatusOK /\
  storage st2 !! "x" = Some a_1 /\
  w (serve (getHandler marshal_example (get "/storage/x") "x") (storage st2))
    = json_reply "{...}".
Proof.
  intros r1 r2 st1 st2.
  destruct (upsert_insert_or_replace decode_example marshal_example
              r1 r2 (get "/storage/x") "x" ∅ foo_bar a_1 eq_refl eq_refl)
    as (H1 & _ & H2 & Hval & Hread & _).
  exact (conj eq_refl (conj eq_refl (conj H1 (conj H2 (conj Hval
           (Hread "{...}" eq_refl)))))).
Defined.

Lemma malformed_write_leaves_store_witness :
  let sto : gmap string Value := {[ "y" := a_1 ]} in
  let r := post "/storage/x" None in
  decode_example (Body r) = None /\
  sto !! "x" = None /\
  storage (serve (putHandler decode_example r "x") sto) = sto /\
  Code (w (serve (putHandler decode_example r "x") sto)) = StatusBadRequest /\
  storage (serve (setHandler decode_example r "x") sto) = sto /\
  Code (w (serve (setHandler decode_example r "x") sto)) = StatusBadRequest.
Proof.
  intros sto r.
  destruct (malformed_write_leaves_store decode_example r "x" sto eq_refl)
    as (H1 & H2 & _ & H3 & _ & H4 & _).
  exact (conj eq_refl (conj eq_refl (conj H1 (conj H2 (conj H3
           (H4 eq_refl)))))).
Defined.

Lemma delete_remove_if_present_witness :
  let sto : gmap string Value := {[ "x" := foo_bar ]} in
  let r := del "/storage/x" in
  let st := serve (deleteHandler r "x") sto in
  let st2 := serve (deleteHandler r "x") (storage st) in
  sto !! "x" = Some foo_bar /\
  Code (w st) = StatusNoContent /\
  storage st !! "x" = None /\
  Code (w st2) = StatusNotFound /\
  storage st2 = storage st.
Proof.
  intros sto r st st2.
  destruct (delete_remove_if_present marshal_example r (get "/storage/x") "x" sto)
    as [Hpresent _].
  destruct (Hpresent foo_bar eq_refl) as (Hcode & Hgone & _).
  destruct (delete_remove_if_present marshal_example r (get "/storage/x") "x"
              (storage st)) as [_ Habsent].
  destruct (Habsent Hgone) as (Hcode2 & Hsame).
  exact (conj eq_refl (conj Hcode (conj Hgone (conj Hcode2 Hsame)))).
Defined.

Lemma read_reflects_last_write_witness :
  let ops := [ Create (post "/storage/x" (Some foo_bar)) "x";
               Delete (del "/storage/x") "x";
               Delete (del "/storage/x") "x";
               Upsert (put "/storage/x" (Some a_1)) "x";
               Create (post "/storage/x" (Some foo_bar)) "x";
               Create (post "/storage/y" None) "y" ] in
  let s := run decode_example marshal_example ops ∅ in
  (expected_value decode_example "x" (snd s) = Some a_1 /\
   marshal_example (VObject {[ "x" := a_1 ]}) = Some "{...}" /\
   fst s !! "x" = Some a_1 /\
   w (serve (getHandler marshal_example (get "/storage/x") "x") (fst s))
     = json_reply "{...}") /\
  (expected_value decode_example "y" (snd s) = None /\
   fst s !! "y" = None /\
   w (serve (getHandler marshal_example (get "/storage/y") "y") (fst s))
     = error_reply "No value found" StatusNotFound).
Proof.
  intros ops s.
  destruct (read_reflects_last_write decode_example marshal_example ops "x")
    as (_ & _ & Hx & Hreadx & _).
  destruct (Hreadx (get "/storage/x")) as [_ Hfound].
  destruct (read_reflects_last_write decode_example marshal_example ops "y")
    as (_ & _ & Hy & Hready & _).
  destruct (Hready (get "/storage/y")) as [Hmissing _].
  exact (conj
           (conj eq_refl (conj eq_refl (conj Hx
              (Hfound a_1 "{...}" eq_refl eq_refl))))
           (conj eq_refl (conj Hy (Hmissing eq_refl)))).
Defined.

Lemma empty_key_never_stored_witness :
  let r := post "/storage/" (Some foo_bar) in
  let sto : gmap string Value := {[ "x" := a_1 ]} in
  TrimPrefix (URL_Path r) "/storage/" = "" /\
  serve (storageHandler decode_example marshal_example r) sto =
    {| storage := sto;
       w := error_reply "Required param key is empty" StatusBadRequest;
       trace := [EvResponse] |} /\
  fst (serve_all decode_example marshal_example
         [r; put "/storage/" (Some a_1); put "/storage/x" (Some a_1)] ∅)
    !! "" = None.
Proof.
  intros r sto.
  destruct (empty_key_never_stored decode_example marshal_example
              [r; put "/storage/" (Some a_1); put "/storage/x" (Some a_1)])
    as [Hnone Hrej].
  exact (conj eq_refl (conj (Hrej r sto eq_refl) Hnone)).
Defined.

Lemma scenario_witness :
  let replies :=
    [ error_reply "No value found" StatusNotFound;
      status_reply StatusCreated;
      json_reply "{...}";
      error_reply "Resource already exists" StatusConflict;
      json_reply "{...}";
      status_reply StatusOK;
      json_reply "{...}";
      status_reply StatusNoContent;
      error_reply "No value found" StatusNotFound;
      error_reply "Data not found" StatusNotFound ] in
  decode_example (Some foo_bar) = Some foo_bar /\
  decode_example (Some a_1) = Some a_1 /\
  marshal_example (VObject {[ "x" := foo_bar ]}) = Some "{...}" /\
  marshal_example (VObject {[ "x" := a_1 ]}) = Some "{...}" /\
  serve_all decode_example marshal_example
    [ get "/storage/x"; post "/storage/x" (Some foo_bar); get "/storage/x";
      post "/storage/x" (Some a_1); get "/storage/x";
      put "/storage/x" (Some a_1); get "/storage/x";
      del "/storage/x"; get "/storage/x"; del "/storage/x" ] ∅
    = (∅, replies).
Proof.
  intros replies.
  destruct (scenario decode_example marshal_example
              None (Some foo_bar) (Some a_1) "{...}" "{...}"
              eq_refl eq_refl eq_refl eq_refl) as (_ & _ & Hserved).
  exact (conj eq_refl (conj eq_refl (conj eq_refl (conj eq_refl Hserved)))).
Defined.

Lemma lock_discipline_witness :
  let r := post "/storage/x" (Some foo_bar) in
  let stc := serve (setHandler decode_example r "x") ∅ in
  let stu := serve (putHandler decode_example r "x") ∅ in
  (∅ : gmap string Value) !! "x" = None /\
  In EvDecodeBody (under_lock false (trace stc)) /\
  map_work_only (trace stu) = true /\
  head (trace stu) = Some EvDecodeBody.
Proof.
  intros r stc stu.
  destruct (lock_discipline decode_example marshal_example r "x" ∅)
    as ((Hu & _ & Hhead) & _ & (_ & _ & _ & _ & Hdec)).
  exact (conj eq_refl (conj (Hdec eq_refl) (conj Hu Hhead))).
Defined.

Lemma frame_other_keys_witness :
  let sto : gmap string Value := {[ "y" := foo_bar ]} in
  let o := Delete (del "/storage/x") "x" in
  "y" <> op_key o /\
  storage (serve (handler_of decode_example marshal_example o) sto) !! "y"
    = sto !! "y".
Proof.
  intros sto o.
  assert (Hne : "y" <> op_key o) by discriminate.
  destruct (frame_other_keys decode_example marshal_example o "y" sto Hne)
    as [Hframe _].
  exact (conj Hne Hframe).
Defined.

Lemma null_is_present_witness :
  let r := put "/storage/x" (Some VNull) in
  let st := serve (putHandler decode_example r "x") ∅ in
  decode_example (Body r) = Some VNull /\
  storage st !! "x" = Some VNull /\
  w (serve (getHandler marshal_example (get "/storage/x") "x") (storage st))
    = json_reply "{...}" /\
  Code (w (serve (setHandler decode_example r "x") (storage st)))
    = StatusConflict /\
  Code (w (serve (deleteHandler (del "/storage/x") "x") (storage st)))
    = StatusNoContent.
Proof.
  intros r st.
  destruct (null_is_present decode_example marshal_example
              r (get "/storage/x") r (del "/storage/x") "x" ∅ st
              eq_refl (or_intror eq_refl))
    as (Hval & Hread & _ & Hconflict & Hdel).
  exact (conj eq_refl (conj Hval (conj (Hread "{...}" eq_refl)
           (conj Hconflict Hdel)))).
Defined.

(** * Further properties of the handlers and the dispatcher *)

Section MoreProperties.

Context {ReadCloser : Type}.
Variable json_Decode : ReadCloser -> option Value.
Variable json_Marshal : Value -> option string.

Implicit Types (r : Request ReadCloser) (key k : string)
  (sto : gmap string Value) (value v : Value) (o : Op ReadCloser).

Ltac run_handler :=
  unfold serve, setHandler, putHandler, getHandler, deleteHandler, defer,
    decode_body, storage_lookup, storage_store, storage_delete, mutex_Lock,
    mutex_Unlock, mutex_RLock, mutex_RUnlock, logger_Info, logger_Warn,
    logger_Error, http_Error, w_WriteHeader, w_Write, w_Header_Set, bind, ret,
    emit, modify_storage, modify_w, get_storage;
  cbn [fst snd storage w trace app].

(** ** Key extraction *)

Lemma substring_all (s : string) :
  String.substring 0 (String.length s) s = s.
Proof. induction s as [|b s IH]; cbn; [reflexivity | by rewrite IH]. Qed.

Lemma append_cons a (s t : string) : String a s ++ t = String a (s ++ t).
Proof. reflexivity. Qed.

Lemma append_nil_r (s : string) : s ++ "" = s.
Proof.
  induction s as [|a s IH]; [done|]. rewrite append_cons. by rewrite IH.
Qed.

Lemma append_inj_l (pre k k' : string) : pre ++ k = pre ++ k' -> k = k'.
Proof.
  induction pre as [|a pre IH]; [done|].
  rewrite !append_cons. intros [= H]. by apply IH.
Qed.

Lemma prefix_split (pre s : string) :
  String.prefix pre s = true ->
  s = pre ++ String.substring (String.length pre)
               (String.length s - String.length pre) s.
Proof.
  revert s. induction pre as [|a pre IH]; intros s.
  - intros _. cbn [String.length].
    rewrite Nat.sub_0_r, substring_all. reflexivity.
  - destruct s as [|b s]; [discriminate|]. cbn [String.prefix].
    destruct (Ascii.ascii_dec a b) as [->|]; [|discriminate].
    intros H. rewrite append_cons.
    cbn [String.length String.substring Nat.sub].
    f_equal. by apply IH.
Qed.

Lemma prefix_append (pre k : string) : String.prefix pre (pre ++ k) = true.
Proof.
  induction pre as [|a pre IH]; [by destruct k|].
  rewrite append_cons. cbn [String.prefix].
  by destruct (Ascii.ascii_dec a a).
Qed.

Lemma TrimPrefix_append (pre k : string) : TrimPrefix (pre ++ k) pre = k.
Proof.
  unfold TrimPrefix, HasPrefix. rewrite prefix_append.
  pose proof (prefix_split pre (pre ++ k) (prefix_append pre k)) as Hs.
  symmetry. exact (append_inj_l _ _ _ Hs).
Qed.

Lemma TrimPrefix_empty (pre p : string) :
  TrimPrefix p pre = "" <-> p = "" \/ p = pre.
Proof.
  split.
  - unfold TrimPrefix, HasPrefix.
    destruct (String.prefix pre p) eqn:Hp; [|by left].
    intros He. right. rewrite (prefix_split pre p Hp), He.
    apply append_nil_r.
  - intros [-> | ->].
    + unfold TrimPrefix. destruct (HasPrefix "" pre); [|done].
      cbn [String.length Nat.sub]. by destruct (String.length pre).
    + rewrite <- (append_nil_r pre) at 1. apply TrimPrefix_append.
Qed.

(** X1. Key extraction.  The path [/storage/k] names the key [k],
    whatever [k] is (slashes included); a path that does not start with
    [/storage/] is taken whole as the key; the extracted key is empty
    exactly for the paths [/storage/] and the empty path.  So every
    non-empty key can be addressed: a PUT on [/storage/k] is the Upsert
    of [k]. *)
Theorem key_extraction :
  (forall k, TrimPrefix ("/storage/" ++ k) "/storage/" = k) /\
  (forall p, HasPrefix p "/storage/" = false -> TrimPrefix p "/storage/" = p) /\
  (forall p, TrimPrefix p "/storage/" = "" <-> p = "" \/ p = "/storage/") /\
  (forall k (b : ReadCloser),
      k <> "" ->
      let r := mkRequest MethodPut ("/storage/" ++ k) b in
      operation r = Some (Upsert r k)).
Proof.
  split; [intros k; apply TrimPrefix_append|].
  split; [intros p Hp; unfold TrimPrefix; by rewrite Hp|].
  split; [intros p; apply TrimPrefix_empty|].
  intros k b Hk r. unfold operation. cbn [URL_Path Method r].
  rewrite TrimPrefix_append.
  destruct (String.eqb_spec k "") as [->|_]; [done|]. reflexivity.
Qed.

(** ** Runs of the dispatcher *)

(** A handler started after other effects appends its own to them and is
    otherwise as when started afresh. *)
Lemma handler_of_prefixed o sto t :
  let st := serve (handler_of json_Decode json_Marshal o) sto in
  snd (handler_of json_Decode json_Marshal o (mkState sto NewRecorder t)) =
    mkState (storage st) (w st) (t ++ trace st).
Proof.
  destruct o as [r key|r key|r key|r key]; cbn [handler_of]; run_handler.
  - destruct (sto !! key); cbn [fst snd storage w trace app];
      [by rewrite <- !app_assoc|].
    destruct (json_Decode (Body r)); cbn [fst snd storage w trace app];
      by rewrite <- !app_assoc.
  - destruct (json_Decode (Body r)); cbn [fst snd storage w trace app];
      by rewrite <- !app_assoc.
  - destruct (sto !! key) as [value|]; cbn [fst snd storage w trace app];
      [|by rewrite <- !app_assoc].
    destruct (json_Marshal (VObject {[ key := value ]}));
      cbn [fst snd storage w trace app]; by rewrite <- !app_assoc.
  - destruct (sto !! key); cbn [fst snd storage w trace app];
      by rewrite <- !app_assoc.
Qed.

Lemma storageHandler_run r sto o :
  operation r = Some o ->
  let st := serve (handler_of json_Decode json_Marshal o) sto in
  serve (storageHandler json_Decode json_Marshal r) sto =
    mkState (storage st) (w st)
      (EvLog InfoLevel "Received request"
         :: trace st ++ [EvLog InfoLevel "Request handled"]).
Proof.
  intros Ho st.
  assert (Hrun : forall h : M unit,
    snd (h (mkState sto NewRecorder [EvLog InfoLevel "Received request"]))
      = mkState (storage st) (w st)
          ([EvLog InfoLevel "Received request"] ++ trace st) ->
    serve (logger_Info "Received request" ;;; h ;;;
           logger_Info "Request handled") sto
      = mkState (storage st) (w st)
          (EvLog InfoLevel "Received request"
             :: trace st ++ [EvLog InfoLevel "Request handled"])).
  { intros h Hh. unfold serve, bind, logger_Info, emit in *.
    cbn [storage w trace app fst snd] in *.
    destruct (h _) as [[] st1]. cbn [snd] in Hh. subst st1. reflexivity. }
  revert Ho. unfold operation, storageHandler.
  set (key := TrimPrefix (URL_Path r) "/storage/").
  destruct (String.eqb key ""); [discriminate|].
  intros Ho.
  repeat match type of Ho with
         | (if ?c then _ else _) = _ => destruct c
         end;
    try discriminate; injection Ho as Ho; cbv iota; apply Hrun;
    subst st; rewrite <- Ho;
    match goal with
    | |- _ = mkState (storage (serve (handler_of _ _ ?o') _)) _ _ =>
        exact (handler_of_prefixed o' sto _)
    end.
Qed.

Lemma storageHandler_unsupported r sto :
  TrimPrefix (URL_Path r) "/storage/" <> "" ->
  Method r <> MethodGet -> Method r <> MethodPost ->
  Method r <> MethodPut -> Method r <> MethodDelete ->
  serve (storageHandler json_Decode json_Marshal r) sto =
    mkState sto (error_reply "Unsupported method" StatusMethodNotAllowed)
      [ EvLog InfoLevel "Received request";
        EvLog WarnLevel "Unsupported method";
        EvResponse;
        EvLog InfoLevel "Request handled" ].
Proof.
  intros Hk Hg Hpo Hpu Hd. unfold storageHandler.
  apply String.eqb_neq in Hk, Hg, Hpo, Hpu, Hd.
  rewrite Hk, Hg, Hpo, Hpu, Hd. reflexivity.
Qed.

(** X2. Unsupported verbs.  A request with a non-empty key whose verb is
    none of GET, POST, PUT and DELETE (verbs are compared as written, in
    capitals) is answered 405 with the text [Unsupported method]: the
    store is as before, and the run is two log lines, a warning and the
    response, with no lock taken, no map access and no decoding. *)
Theorem unsupported_method_rejected r sto :
  TrimPrefix (URL_Path r) "/storage/" <> "" ->
  Method r <> MethodGet -> Method r <> MethodPost ->
  Method r <> MethodPut -> Method r <> MethodDelete ->
  serve (storageHandler json_Decode json_Marshal r) sto =
    mkState sto (error_reply "Unsupported method" StatusMethodNotAllowed)
      [ EvLog InfoLevel "Received request";
        EvLog WarnLevel "Unsupported method";
        EvResponse;
        EvLog InfoLevel "Request handled" ].
Proof. apply storageHandler_unsupported. Qed.

(** X3. The dispatcher adds two log lines and nothing else.  A request
    that names an operation is served exactly as the handler of that
    operation serves it, same store and same response, between the log
    lines [Received request] and [Request handled]; the handler's
    effects, its critical section included, lie between the two. *)
Theorem dispatcher_brackets_handler r sto o :
  operation r = Some o ->
  let st := serve (handler_of json_Decode json_Marshal o) sto in
  serve (storageHandler json_Decode json_Marshal r) sto =
    mkState (storage st) (w st)
      (EvLog InfoLevel "Received request"
         :: trace st ++ [EvLog InfoLevel "Request handled"]).
Proof. apply storageHandler_run. Qed.

(** ** Every way a request can be served *)

(** The ten runs of the four handlers, by case on the entry of the key,
    on the decoding of the body and on the encoding of the value. *)
Ltac handler_cases o sto :=
  let r := fresh "r" in
  let key := fresh "key" in
  let v0 := fresh "v0" in
  let value := fresh "value" in
  let d := fresh "jsonData" in
  let Hl := fresh "Hl" in
  let Hd := fresh "Hd" in
  let Hm := fresh "Hm" in
  destruct o as [r key|r key|r key|r key]; cbn [handler_of op_key] in *;
  [ destruct (sto !! key) as [v0|] eqn:Hl;
    [ rewrite ?(setHandler_present json_Decode r key sto v0 Hl) in *
    | destruct (json_Decode (Body r)) as [value|] eqn:Hd;
      [ rewrite ?(setHandler_absent_decoded json_Decode r key sto value Hl Hd) in *
      | rewrite ?(setHandler_absent_malformed json_Decode r key sto Hl Hd) in * ] ]
  | destruct (json_Decode (Body r)) as [value|] eqn:Hd;
    [ rewrite ?(putHandler_decoded json_Decode r key sto value Hd) in *
    | rewrite ?(putHandler_malformed json_Decode r key sto Hd) in * ]
  | destruct (sto !! key) as [v0|] eqn:Hl;
    [ destruct (json_Marshal (VObject {[ key := v0 ]})) as [d|] eqn:Hm;
      [ rewrite ?(getHandler_present json_Marshal r key sto v0 d Hl Hm) in *
      | rewrite ?(getHandler_unencodable json_Marshal r key sto v0 Hl Hm) in * ]
    | rewrite ?(getHandler_absent json_Marshal r key sto Hl) in * ]
  | destruct (sto !! key) as [v0|] eqn:Hl;
    [ rewrite ?(deleteHandler_present r key sto v0 Hl) in *
    | rewrite ?(deleteHandler_absent r key sto Hl) in * ] ];
  cbn [storage w trace] in *.

Lemma storageHandler_cases r sto :
  let st := serve (storageHandler json_Decode json_Marshal r) sto in
  (TrimPrefix (URL_Path r) "/storage/" = "" /\
   st = mkState sto
          (error_reply "Required param key is empty" StatusBadRequest)
          [EvResponse]) \/
  (operation r = None /\
   st = mkState sto
          (error_reply "Unsupported method" StatusMethodNotAllowed)
          [ EvLog InfoLevel "Received request";
            EvLog WarnLevel "Unsupported method";
            EvResponse;
            EvLog InfoLevel "Request handled" ]) \/
  (exists o,
      operation r = Some o /\
      st = mkState
             (storage (serve (handler_of json_Decode json_Marshal o) sto))
             (w (serve (handler_of json_Decode json_Marshal o) sto))
             (EvLog InfoLevel "Received request"
                :: trace (serve (handler_of json_Decode json_Marshal o) sto)
                ++ [EvLog InfoLevel "Request handled"])).
Proof.
  intros st. subst st.
  destruct (operation r) as [o|] eqn:Ho.
  - right. right. exists o. split; [reflexivity|].
    by apply storageHandler_run.
  - destruct (String.eqb_spec (TrimPrefix (URL_Path r) "/storage/") "")
      as [Hk|Hk].
    + left. split; [exact Hk|]. unfold storageHandler. by rewrite Hk.
    + right. left. split; [reflexivity|].
      unfold operation in Ho. apply String.eqb_neq in Hk. rewrite Hk in Ho.
      apply String.eqb_neq in Hk.
      destruct (String.eqb_spec (Method r) MethodGet); [discriminate|].
      destruct (String.eqb_spec (Method r) MethodPost); [discriminate|].
      destruct (String.eqb_spec (Method r) MethodPut); [discriminate|].
      destruct (String.eqb_spec (Method r) MethodDelete); [discriminate|].
      by apply storageHandler_unsupported.
Qed.

(** ** Status codes *)

(** X4. The status is decided by the entry of the key, by whether the
    body decodes and by whether the value encodes, and by nothing else.
    Create answers 409 exactly when the key is present, 400 exactly when
    it is absent and the body does not decode, 201 exactly when it is
    absent and the body decodes.  Upsert answers 400 exactly when the
    body does not decode and 200 exactly when it does.  Read answers 404
    exactly when the key is absent, 500 exactly when it is present with a
    value that does not encode, 200 exactly when it is present with one
    that does.  Delete answers 404 exactly when the key is absent and 204
    exactly when it is present. *)
Theorem status_table r key sto :
  let create := Code (w (serve (setHandler json_Decode r key) sto)) in
  let upsert := Code (w (serve (putHandler json_Decode r key) sto)) in
  let read := Code (w (serve (getHandler json_Marshal r key) sto)) in
  let delete := Code (w (serve (deleteHandler r key) sto)) in
  ((create = StatusConflict <-> is_Some (sto !! key)) /\
   (create = StatusBadRequest <->
      sto !! key = None /\ json_Decode (Body r) = None) /\
   (create = StatusCreated <->
      sto !! key = None /\ is_Some (json_Decode (Body r)))) /\
  ((upsert = StatusBadRequest <-> json_Decode (Body r) = None) /\
   (upsert = StatusOK <-> is_Some (json_Decode (Body r)))) /\
  ((read = StatusNotFound <-> sto !! key = None) /\
   (read = StatusInternalServerError <->
      exists value, sto !! key = Some value /\
                    json_Marshal (VObject {[ key := value ]}) = None) /\
   (read = StatusOK <->
      exists value, sto !! key = Some value /\
                    is_Some (json_Marshal (VObject {[ key := value ]})))) /\
  ((delete = StatusNotFound <-> sto !! key = None) /\
   (delete = StatusNoContent <-> is_Some (sto !! key))).
Proof.
  intros create upsert read delete. subst create upsert read delete.
  split; [|split; [|split]].
  - destruct (sto !! key) as [v0|] eqn:Hl.
    + rewrite (setHandler_present json_Decode r key sto v0 Hl). cbn.
      repeat split; try done; by intros [? ?].
    + destruct (json_Decode (Body r)) as [value|] eqn:Hd.
      * rewrite (setHandler_absent_decoded json_Decode r key sto value Hl Hd).
        cbn. repeat split; try done; try (by intros [? ?]); by eexists.
      * rewrite (setHandler_absent_malformed json_Decode r key sto Hl Hd).
        cbn. repeat split; try done; try (by intros [? ?]);
          by intros [_ [? ?]].
  - destruct (json_Decode (Body r)) as [value|] eqn:Hd.
    + rewrite (putHandler_decoded json_Decode r key sto value Hd). cbn.
      repeat split; try done; by eexists.
    + rewrite (putHandler_malformed json_Decode r key sto Hd). cbn.
      repeat split; try done; by intros [? ?].
  - destruct (sto !! key) as [v0|] eqn:Hl.
    + destruct (json_Marshal (VObject {[ key := v0 ]})) as [d|] eqn:Hm.
      * rewrite (getHandler_present json_Marshal r key sto v0 d Hl Hm). cbn.
        repeat split; try done.
        -- intros (value & [= <-] & Hn). congruence.
        -- intros _. exists v0. split; [done|]. rewrite Hm. by eexists.
      * rewrite (getHandler_unencodable json_Marshal r key sto v0 Hl Hm). cbn.
        repeat split; try done.
        -- intros _. by exists v0.
        -- intros (value & [= <-] & [? Hs]). congruence.
    + rewrite (getHandler_absent json_Marshal r key sto Hl). cbn.
      repeat split; try done; by intros (? & ? & ?).
  - destruct (sto !! key) as [v0|] eqn:Hl.
    + rewrite (deleteHandler_present r key sto v0 Hl). cbn.
      repeat split; try done.
    + rewrite (deleteHandler_absent r key sto Hl). cbn.
      repeat split; try done; by intros [? ?].
Qed.

(** X5. Nothing changes without success.  An operation that does not
    answer with a 2xx status leaves the store as it was, whether the
    handler is called directly or through the dispatcher; and a request
    whose verb is not POST, PUT or DELETE leaves the store as it was
    whatever it answers. *)
Theorem failure_leaves_store sto :
  (forall o,
      successful (Code (snd (step json_Decode json_Marshal sto o))) = false ->
      fst (step json_Decode json_Marshal sto o) = sto) /\
  (forall r,
      successful (Code (snd (serve_request json_Decode json_Marshal sto r)))
        = false ->
      fst (serve_request json_Decode json_Marshal sto r) = sto) /\
  (forall r,
      Method r <> MethodPost -> Method r <> MethodPut ->
      Method r <> MethodDelete ->
      fst (serve_request json_Decode json_Marshal sto r) = sto).
Proof.
  assert (Hstep : forall o,
    successful (Code (snd (step json_Decode json_Marshal sto o))) = false ->
    fst (step json_Decode json_Marshal sto o) = sto).
  { intros o. unfold step. cbn [fst snd]. handler_cases o sto;
      first [reflexivity | discriminate]. }
  split; [exact Hstep|]. split.
  - intros r. destruct (operation r) as [o|] eqn:Ho.
    + rewrite (storageHandler_operation json_Decode json_Marshal r sto o Ho).
      apply Hstep.
    + intros _. by apply storageHandler_rejected.
  - intros r Hpo Hpu Hd. destruct (operation r) as [o|] eqn:Ho.
    + rewrite (storageHandler_operation json_Decode json_Marshal r sto o Ho).
      unfold operation in Ho.
      destruct (String.eqb _ "") in Ho; [discriminate|].
      destruct (String.eqb_spec (Method r) MethodGet).
      * injection Ho as <-. unfold step. cbn [fst handler_of].
        apply getHandler_storage.
      * destruct (String.eqb_spec (Method r) MethodPost); [done|].
        destruct (String.eqb_spec (Method r) MethodPut); [done|].
        destruct (String.eqb_spec (Method r) MethodDelete); [done|].
        discriminate.
    + by apply storageHandler_rejected.
Qed.

(** X6. Every request is answered exactly once.  However a request is
    served by the dispatcher (rejected, dispatched, failing or not), its
    run writes the response exactly once, the status line is written, and
    the status is one of 200, 201, 204, 400, 404, 405, 409 and 500.  The
    same holds of a handler called directly. *)
Theorem answered_exactly_once sto :
  (forall r,
      let st := serve (storageHandler json_Decode json_Marshal r) sto in
      length (filter is_response (trace st)) = 1 /\
      is_Some (wroteHeader (w st)) /\
      In (Code (w st)) statuses) /\
  (forall o,
      let st := serve (handler_of json_Decode json_Marshal o) sto in
      length (filter is_response (trace st)) = 1 /\
      is_Some (wroteHeader (w st)) /\
      In (Code (w st)) statuses).
Proof.
  assert (Hin : forall c, bool_decide (c ∈ statuses) = true -> In c statuses).
  { intros c Hc. apply list_elem_of_In. by apply bool_decide_eq_true in Hc. }
  split.
  - intros r st.
    destruct (storageHandler_cases r sto) as [[_ Hr]|[[_ Hr]|(o & _ & Hr)]];
      fold st in Hr; rewrite Hr; clear Hr st; cbn [storage w trace].
    + split; [reflexivity|]. split; [by eexists | by apply Hin].
    + split; [reflexivity|]. split; [by eexists | by apply Hin].
    + handler_cases o sto;
        (split; [reflexivity|]; split; [by eexists | by apply Hin]).
  - intros o st. subst st.
    handler_cases o sto;
      (split; [reflexivity|]; split; [by eexists | by apply Hin]).
Qed.

(** ** The mutex *)

(** X7. The mutex protocol is respected.  Every run of a handler, and
    every run of the dispatcher, starts with the mutex free and ends with
    it free; in between it never locks a mutex it already holds, it calls
    Unlock only after Lock and RUnlock only after RLock.  So no request
    can block on its own lock, cause a fatal unlock error, or leave the
    mutex held for the requests that follow. *)
Theorem mutex_protocol_respected sto :
  (forall o,
      mutex_protocol Unlocked
        (trace (serve (handler_of json_Decode json_Marshal o) sto))
        = Some Unlocked) /\
  (forall r,
      mutex_protocol Unlocked
        (trace (serve (storageHandler json_Decode json_Marshal r) sto))
        = Some Unlocked).
Proof.
  split.
  - intros o. handler_cases o sto; reflexivity.
  - intros r.
    destruct (storageHandler_cases r sto) as [[_ Hr]|[[_ Hr]|(o & _ & Hr)]];
      rewrite Hr; clear Hr; cbn [trace]; [reflexivity..|].
    handler_cases o sto; reflexivity.
Qed.

(** X8. The map is never touched without the mutex.  In every run of a
    handler and of the dispatcher, each lookup in [storage] happens while
    the mutex is held (for reading or for writing), and each store and
    each delete while it is held for writing. *)
Theorem storage_accessed_under_mutex sto :
  (forall o,
      guarded_access Unlocked
        (trace (serve (handler_of json_Decode json_Marshal o) sto)) = true) /\
  (forall r,
      guarded_access Unlocked
        (trace (serve (storageHandler json_Decode json_Marshal r) sto)) = true).
Proof.
  split.
  - intros o. handler_cases o sto; reflexivity.
  - intros r.
    destruct (storageHandler_cases r sto) as [[_ Hr]|[[_ Hr]|(o & _ & Hr)]];
      rewrite Hr; clear Hr; cbn [trace]; [reflexivity..|].
    handler_cases o sto; reflexivity.
Qed.

(** ** Locality and composition *)

Lemma step_local o sto1 sto2 :
  sto1 !! op_key o = sto2 !! op_key o ->
  snd (step json_Decode json_Marshal sto1 o)
    = snd (step json_Decode json_Marshal sto2 o) /\
  fst (step json_Decode json_Marshal sto1 o) !! op_key o
    = fst (step json_Decode json_Marshal sto2 o) !! op_key o.
Proof.
  intros H. unfold step. cbn [fst snd].
  destruct o as [r key|r key|r key|r key]; cbn [handler_of op_key] in *.
  - destruct (sto1 !! key) as [v0|] eqn:H1; symmetry in H.
    + rewrite (setHandler_present json_Decode r key sto1 v0 H1),
        (setHandler_present json_Decode r key sto2 v0 H).
      cbn [storage w]. by rewrite H1, H.
    + destruct (json_Decode (Body r)) as [value|] eqn:Hd.
      * rewrite (setHandler_absent_decoded json_Decode r key sto1 value H1 Hd),
          (setHandler_absent_decoded json_Decode r key sto2 value H Hd).
        cbn [storage w]. by rewrite !lookup_insert_eq.
      * rewrite (setHandler_absent_malformed json_Decode r key sto1 H1 Hd),
          (setHandler_absent_malformed json_Decode r key sto2 H Hd).
        cbn [storage w]. by rewrite H1, H.
  - destruct (json_Decode (Body r)) as [value|] eqn:Hd.
    + rewrite (putHandler_decoded json_Decode r key sto1 value Hd),
        (putHandler_decoded json_Decode r key sto2 value Hd).
      cbn [storage w]. by rewrite !lookup_insert_eq.
    + rewrite (putHandler_malformed json_Decode r key sto1 Hd),
        (putHandler_malformed json_Decode r key sto2 Hd).
      cbn [storage w]. by rewrite H.
  - rewrite !getHandler_storage. split; [|exact H].
    destruct (sto1 !! key) as [v0|] eqn:H1; symmetry in H.
    + destruct (json_Marshal (VObject {[ key := v0 ]})) as [d|] eqn:Hm.
      * by rewrite (getHandler_present json_Marshal r key sto1 v0 d H1 Hm),
          (getHandler_present json_Marshal r key sto2 v0 d H Hm).
      * by rewrite (getHandler_unencodable json_Marshal r key sto1 v0 H1 Hm),
          (getHandler_unencodable json_Marshal r key sto2 v0 H Hm).
    + by rewrite (getHandler_absent json_Marshal r key sto1 H1),
        (getHandler_absent json_Marshal r key sto2 H).
  - rewrite !deleteHandler_storage, !lookup_delete_eq. split; [|done].
    destruct (sto1 !! key) as [v0|] eqn:H1; symmetry in H.
    + by rewrite (deleteHandler_present r key sto1 v0 H1),
        (deleteHandler_present r key sto2 v0 H).
    + by rewrite (deleteHandler_absent r key sto1 H1),
        (deleteHandler_absent r key sto2 H).
Qed.

(** X9. The answer depends on the key's own entry only.  Two stores that
    agree on the entry of the operation's key give the same response,
    headers and body included, and the same entry for that key
    afterwards, whatever else they hold. *)
Theorem response_depends_on_own_entry o sto1 sto2 :
  sto1 !! op_key o = sto2 !! op_key o ->
  snd (step json_Decode json_Marshal sto1 o)
    = snd (step json_Decode json_Marshal sto2 o) /\
  fst (step json_Decode json_Marshal sto1 o) !! op_key o
    = fst (step json_Decode json_Marshal sto2 o) !! op_key o.
Proof. apply step_local. Qed.

(** X10. Operations on different keys commute.  Served in either order,
    two operations on different keys leave the same store, and each gets
    the response it would get if served alone. *)
Theorem distinct_keys_commute o1 o2 sto :
  op_key o1 <> op_key o2 ->
  let s1 := step json_Decode json_Marshal sto o1 in
  let s2 := step json_Decode json_Marshal sto o2 in
  let s12 := step json_Decode json_Marshal (fst s1) o2 in
  let s21 := step json_Decode json_Marshal (fst s2) o1 in
  fst s12 = fst s21 /\ snd s12 = snd s2 /\ snd s21 = snd s1.
Proof.
  intros Hne s1 s2 s12 s21.
  assert (H12 : fst s1 !! op_key o2 = sto !! op_key o2).
  { apply (handler_frame json_Decode json_Marshal o1). congruence. }
  assert (H21 : fst s2 !! op_key o1 = sto !! op_key o1).
  { apply (handler_frame json_Decode json_Marshal o2). congruence. }
  destruct (step_local o2 _ _ H12) as [Hr2 He2].
  destruct (step_local o1 _ _ H21) as [Hr1 He1].
  split; [|by split].
  apply map_eq. intros k. subst s12 s21.
  destruct (decide (k = op_key o2)) as [->|Hk2].
  - rewrite He2. symmetry.
    apply (handler_frame json_Decode json_Marshal o1). congruence.
  - destruct (decide (k = op_key o1)) as [->|Hk1].
    + rewrite He1. by apply (handler_frame json_Decode json_Marshal o2).
    + unfold step. cbn [fst].
      rewrite !(handler_frame json_Decode json_Marshal) by done.
      unfold s1, s2, step. cbn [fst].
      by rewrite !(handler_frame json_Decode json_Marshal) by done.
Qed.

(** X11. Upsert is idempotent.  Serving the same Upsert a second time
    gives the same response and leaves the store as the first left it,
    whether the body decodes or not. *)
Theorem upsert_idempotent r key sto :
  let s1 := step json_Decode json_Marshal sto (Upsert r key) in
  step json_Decode json_Marshal (fst s1) (Upsert r key) = s1.
Proof.
  intros s1. subst s1. unfold step. cbn [handler_of fst].
  destruct (json_Decode (Body r)) as [value|] eqn:Hd.
  - rewrite !(putHandler_decoded json_Decode r key _ value Hd).
    cbn [storage w]. by rewrite insert_insert_eq.
  - by rewrite !(putHandler_malformed json_Decode r key _ Hd).
Qed.

(** X12. Upsert is Delete followed by Create.  With a body that decodes,
    deleting the key (present or not) and then creating it leaves the
    store exactly as one Upsert does, and the Create answers 201. *)
Theorem upsert_is_delete_then_create r r' key sto value :
  json_Decode (Body r) = Some value ->
  let deleted := fst (step json_Decode json_Marshal sto (Delete r' key)) in
  let created := step json_Decode json_Marshal deleted (Create r key) in
  fst created = fst (step json_Decode json_Marshal sto (Upsert r key)) /\
  Code (snd created) = StatusCreated.
Proof.
  intros Hd deleted created. subst deleted created. unfold step.
  cbn [handler_of fst snd].
  rewrite deleteHandler_storage.
  rewrite (setHandler_absent_decoded json_Decode r key _ value
             (lookup_delete_eq _ _) Hd).
  rewrite (putHandler_decoded json_Decode r key sto value Hd).
  cbn [storage w]. by rewrite insert_delete_eq.
Qed.

(** X13. Create and Delete undo each other.  On a store without the key,
    a Create (201) followed by a Delete (204) gives back the store
    exactly; on a store that holds [value] under the key, a Delete (204)
    followed by a Create of the same value (201) gives back the store
    exactly. *)
Theorem create_delete_round_trip r r' key sto value :
  json_Decode (Body r) = Some value ->
  (sto !! key = None ->
   let s1 := step json_Decode json_Marshal sto (Create r key) in
   let s2 := step json_Decode json_Marshal (fst s1) (Delete r' key) in
   Code (snd s1) = StatusCreated /\ Code (snd s2) = StatusNoContent /\
   fst s2 = sto) /\
  (sto !! key = Some value ->
   let s1 := step json_Decode json_Marshal sto (Delete r' key) in
   let s2 := step json_Decode json_Marshal (fst s1) (Create r key) in
   Code (snd s1) = StatusNoContent /\ Code (snd s2) = StatusCreated /\
   fst s2 = sto).
Proof.
  intros Hd. split; intros Hl s1 s2; subst s1 s2; unfold step;
    cbn [handler_of fst snd].
  - rewrite (setHandler_absent_decoded json_Decode r key sto value Hl Hd).
    cbn [storage w].
    rewrite (deleteHandler_present r' key _ value (lookup_insert_eq _ _ _)).
    cbn [storage w]. by rewrite delete_insert_id.
  - rewrite (deleteHandler_present r' key sto value Hl). cbn [storage w].
    rewrite (setHandler_absent_decoded json_Decode r key _ value
               (lookup_delete_eq _ _) Hd).
    cbn [storage w]. by rewrite insert_delete_id.
Qed.

(** ** What the store can hold *)

Lemma operation_inv r o :
  operation r = Some o ->
  let key := TrimPrefix (URL_Path r) "/storage/" in
  (o = Read r key /\ Method r = MethodGet) \/
  (o = Create r key /\ Method r = MethodPost) \/
  (o = Upsert r key /\ Method r = MethodPut) \/
  (o = Delete r key /\ Method r = MethodDelete).
Proof.
  unfold operation. intros Ho.
  set (key := TrimPrefix (URL_Path r) "/storage/") in *.
  destruct (String.eqb key ""); [discriminate|].
  destruct (String.eqb_spec (Method r) MethodGet);
    [injection Ho as <-; tauto|].
  destruct (String.eqb_spec (Method r) MethodPost);
    [injection Ho as <-; tauto|].
  destruct (String.eqb_spec (Method r) MethodPut);
    [injection Ho as <-; tauto|].
  destruct (String.eqb_spec (Method r) MethodDelete);
    [injection Ho as <-; tauto|].
  discriminate.
Qed.

Lemma serve_all_cons r reqs sto :
  serve_all json_Decode json_Marshal (r :: reqs) sto =
    let s1 := serve_request json_Decode json_Marshal sto r in
    let s2 := serve_all json_Decode json_Marshal reqs (fst s1) in
    (fst s2, snd s1 :: snd s2).
Proof.
  cbn [serve_all].
  destruct (serve_request json_Decode json_Marshal sto r) as [sto1 rw].
  cbn [fst snd]. by destruct (serve_all json_Decode json_Marshal reqs sto1).
Qed.

Lemma serve_request_provenance r sto k v :
  fst (serve_request json_Decode json_Marshal sto r) !! k = Some v ->
  sto !! k = Some v \/ writes json_Decode k v r.
Proof.
  destruct (operation r) as [o|] eqn:Ho.
  - rewrite (storageHandler_operation json_Decode json_Marshal r sto o Ho).
    unfold step. cbn [fst].
    destruct (operation_inv r o Ho)
      as [[-> Hm]|[[-> Hm]|[[-> Hm]|[-> Hm]]]]; cbn [handler_of].
    + rewrite getHandler_storage. by left.
    + rewrite setHandler_storage.
      destruct (sto !! _) eqn:Hl; [by left|].
      destruct (json_Decode (Body r)) as [value|] eqn:Hd; [|by left].
      destruct (decide (TrimPrefix (URL_Path r) "/storage/" = k)) as [Hk|Hk].
      * rewrite Hk, lookup_insert_eq. intros [= <-]. right.
        unfold writes, is_write. by rewrite Hm.
      * rewrite lookup_insert_ne by done. by left.
    + rewrite putHandler_storage.
      destruct (json_Decode (Body r)) as [value|] eqn:Hd; [|by left].
      destruct (decide (TrimPrefix (URL_Path r) "/storage/" = k)) as [Hk|Hk].
      * rewrite Hk, lookup_insert_eq. intros [= <-]. right.
        unfold writes, is_write. by rewrite Hm.
      * rewrite lookup_insert_ne by done. by left.
    + rewrite deleteHandler_storage. rewrite lookup_delete_Some.
      intros [_ H]. by left.
  - rewrite storageHandler_rejected by done. by left.
Qed.

(** X14. Stored values come from write requests.  Whatever requests the
    dispatcher has served since the store was created empty, every value
    in the store is the decoded body of one of the POST or PUT requests
    served, addressed to the key the value is stored under. *)
Theorem stored_values_come_from_writes reqs k v :
  fst (serve_all json_Decode json_Marshal reqs ∅) !! k = Some v ->
  exists r, In r reqs /\ writes json_Decode k v r.
Proof.
  assert (Hgen : forall sto,
    fst (serve_all json_Decode json_Marshal reqs sto) !! k = Some v ->
    sto !! k = Some v \/ exists r, In r reqs /\ writes json_Decode k v r).
  { induction reqs as [|r reqs IH]; intros sto; [by left|].
    rewrite serve_all_cons. cbn [fst]. intros H.
    destruct (IH _ H) as [H1|(r' & Hin & Hw)].
    - destruct (serve_request_provenance r sto k v H1) as [Hs|Hw];
        [by left|].
      right. exists r. split; [by left | exact Hw].
    - right. exists r'. split; [by right | exact Hw]. }
  intros H. destruct (Hgen ∅ H) as [He|Hex]; [|exact Hex].
  by rewrite lookup_empty in He.
Qed.

Lemma serve_request_size r sto :
  size (fst (serve_request json_Decode json_Marshal sto r))
    <= size sto + (if is_write r then 1 else 0).
Proof.
  destruct (operation r) as [o|] eqn:Ho.
  - rewrite (storageHandler_operation json_Decode json_Marshal r sto o Ho).
    unfold step. cbn [fst].
    destruct (operation_inv r o Ho)
      as [[-> Hm]|[[-> Hm]|[[-> Hm]|[-> Hm]]]]; cbn [handler_of].
    + rewrite getHandler_storage. lia.
    + assert (Hw : is_write r = true)
        by (unfold is_write; rewrite Hm; reflexivity).
      rewrite Hw, setHandler_storage.
      destruct (sto !! _) eqn:Hl; [lia|].
      destruct (json_Decode (Body r)); [|lia].
      rewrite map_size_insert_None by done. lia.
    + assert (Hw : is_write r = true)
        by (unfold is_write; rewrite Hm; reflexivity).
      rewrite Hw, putHandler_storage.
      destruct (json_Decode (Body r)); [|lia].
      rewrite map_size_insert. destruct (sto !! _); cbn [id]; lia.
    + rewrite deleteHandler_storage, map_size_delete.
      destruct (sto !! _); cbn [id]; lia.
  - rewrite storageHandler_rejected by done. lia.
Qed.

(** X15. The store grows by write requests only.  After any requests
    served from the empty store, the number of entries is at most the
    number of POST and PUT requests among them: a request adds at most
    one entry, and only a POST or a PUT adds any. *)
Theorem store_size_bounded reqs :
  size (fst (serve_all json_Decode json_Marshal reqs ∅))
    <= length (List.filter is_write reqs).
Proof.
  assert (Hgen : forall sto,
    size (fst (serve_all json_Decode json_Marshal reqs sto))
      <= size sto + length (List.filter is_write reqs)).
  { induction reqs as [|r reqs IH]; intros sto; [cbn; lia|].
    rewrite serve_all_cons. cbn [fst List.filter].
    pose proof (IH (fst (serve_request json_Decode json_Marshal sto r))) as H1.
    pose proof (serve_request_size r sto) as H2.
    destruct (is_write r); cbn [length]; lia. }
  pose proof (Hgen ∅) as H. by rewrite map_size_empty in H.
Qed.

(** ** Logging and acknowledgement *)

(** X17. One log line per handler run, at the level of the outcome.
    Every run of a handler writes exactly one log line: at Info level
    exactly when the status is a 2xx one, at Error level exactly when the
    body failed to decode (400) or the value failed to encode (500), at
    Warn level exactly when the key was missing (404) or already there
    (409).  A request rejected by the dispatcher for its empty key is not
    logged at all. *)
Theorem log_level_matches_outcome sto :
  (forall o,
      let st := serve (handler_of json_Decode json_Marshal o) sto in
      exists lvl msg,
        logs (trace st) = [(lvl, msg)] /\
        (lvl = InfoLevel <-> successful (Code (w st)) = true) /\
        (lvl = ErrorLevel <->
           Code (w st) = StatusBadRequest \/
           Code (w st) = StatusInternalServerError) /\
        (lvl = WarnLevel <->
           Code (w st) = StatusNotFound \/ Code (w st) = StatusConflict)) /\
  (forall r,
      TrimPrefix (URL_Path r) "/storage/" = "" ->
      logs (trace (serve (storageHandler json_Decode json_Marshal r) sto)) = []).
Proof.
  split.
  - intros o st. subst st.
    handler_cases o sto; eexists _, _; (split; [reflexivity|]);
      cbn; repeat split; intros; try done;
      repeat match goal with H : _ \/ _ |- _ => destruct H end;
      try done; auto.
  - intros r Hk.
    destruct (storageHandler_cases r sto) as [[_ Hr]|[[Ho Hr]|(o & Ho & Hr)]].
    + by rewrite Hr.
    + unfold storageHandler in *. rewrite Hk. reflexivity.
    + unfold operation in Ho. by rewrite Hk in Ho.
Qed.

(** X18. The response comes after the work.  In every run of a handler
    and of the dispatcher, the response is written only after the last
    access to the map and after the body has been decoded: a client that
    has its answer can rely on the change being in the store. *)
Theorem response_after_work sto :
  (forall o,
      settled_at_response false
        (trace (serve (handler_of json_Decode json_Marshal o) sto)) = true) /\
  (forall r,
      settled_at_response false
        (trace (serve (storageHandler json_Decode json_Marshal r) sto)) = true).
Proof.
  split.
  - intros o. handler_cases o sto; reflexivity.
  - intros r.
    destruct (storageHandler_cases r sto) as [[_ Hr]|[[_ Hr]|(o & _ & Hr)]];
      rewrite Hr; clear Hr; cbn [trace]; [reflexivity..|].
    handler_cases o sto; reflexivity.
Qed.

(** ** Sequences of requests *)

(** X16. The dispatcher refines the operations.  After any requests, the
    store is the one the operations they name leave when served in the
    same order; the requests that name no operation (empty key,
    unsupported verb) contribute nothing, wherever they occur. *)
Theorem dispatcher_refines_operations reqs sto :
  fst (serve_all json_Decode json_Marshal reqs sto) =
    fst (run json_Decode json_Marshal (omap operation reqs) sto).
Proof.
  revert sto. induction reqs as [|r reqs IH]; intros sto; [reflexivity|].
  rewrite serve_all_cons. cbn [fst omap list_omap].
  destruct (operation r) as [o|] eqn:Ho.
  - rewrite (storageHandler_operation json_Decode json_Marshal r sto o Ho).
    rewrite run_cons. cbn [fst]. apply IH.
  - rewrite storageHandler_rejected by done. apply IH.
Qed.

End MoreProperties.

(** * Further concrete runs *)

(** The protocol check refuses a second Lock, an Unlock without a Lock
    and an RUnlock after a Lock; the access check refuses a lookup
    without the mutex and a store under the read lock. *)
Example mutex_protocol_refuses_relock :
  mutex_protocol Unlocked [EvLock; EvMapLookup "x"; EvLock] = None.
Proof. reflexivity. Qed.

Example mutex_protocol_refuses_stray_unlock :
  mutex_protocol Unlocked [EvMapLookup "x"; EvUnlock] = None.
Proof. reflexivity. Qed.

Example mutex_protocol_refuses_mismatch :
  mutex_protocol Unlocked [EvLock; EvRUnlock] = None.
Proof. reflexivity. Qed.

Example guarded_access_refuses_bare_lookup :
  guarded_access Unlocked [EvLock; EvUnlock; EvMapLookup "x"] = false.
Proof. reflexivity. Qed.

Example guarded_access_refuses_store_under_read_lock :
  guarded_access Unlocked [EvRLock; EvMapStore "x" VNull; EvRUnlock] = false.
Proof. reflexivity. Qed.

(** Verbs are compared as written: a lower-case [get] is unsupported. *)
Example lower_case_verb_unsupported :
  Code (w (serve (storageHandler decode_example marshal_example
                    (mkRequest "get" "/storage/x" None)) ∅))
    = StatusMethodNotAllowed.
Proof. reflexivity. Qed.

(** ** The further theorems at concrete inputs *)

Lemma key_extraction_witness :
  HasPrefix "/other/x" "/storage/" = false /\
  TrimPrefix "/other/x" "/storage/" = "/other/x" /\
  "a/b" <> "" /\
  operation (put "/storage/a/b" (Some a_1))
    = Some (Upsert (put "/storage/a/b" (Some a_1)) "a/b").
Proof.
  destruct (@key_extraction decoded_body) as (_ & Hother & _ & Hput).
  assert (Hne : "a/b" <> "") by discriminate.
  exact (conj eq_refl (conj (Hother "/other/x" eq_refl)
           (conj Hne (Hput "a/b" (Some a_1) Hne)))).
Defined.

Lemma unsupported_method_rejected_witness :
  let r : Request decoded_body := mkRequest "PATCH" "/storage/x" (Some a_1) in
  let sto : gmap string Value := {[ "x" := foo_bar ]} in
  TrimPrefix (URL_Path r) "/storage/" <> "" /\
  Method r <> MethodGet /\ Method r <> MethodPost /\
  Method r <> MethodPut /\ Method r <> MethodDelete /\
  serve (storageHandler decode_example marshal_example r) sto =
    mkState sto (error_reply "Unsupported method" StatusMethodNotAllowed)
      [ EvLog InfoLevel "Received request";
        EvLog WarnLevel "Unsupported method";
        EvResponse;
        EvLog InfoLevel "Request handled" ].
Proof.
  intros r sto.
  assert (Hk : TrimPrefix (URL_Path r) "/storage/" <> "") by discriminate.
  assert (Hg : Method r <> MethodGet) by discriminate.
  assert (Hpo : Method r <> MethodPost) by discriminate.
  assert (Hpu : Method r <> MethodPut) by discriminate.
  assert (Hd : Method r <> MethodDelete) by discriminate.
  exact (conj Hk (conj Hg (conj Hpo (conj Hpu (conj Hd
           (unsupported_method_rejected decode_example marshal_example
              r sto Hk Hg Hpo Hpu Hd)))))).
Defined.

Lemma dispatcher_brackets_handler_witness :
  let r := del "/storage/x" in
  let sto : gmap string Value := {[ "x" := foo_bar ]} in
  operation r = Some (Delete r "x") /\
  serve (storageHandler decode_example marshal_example r) sto =
    mkState ∅ (status_reply StatusNoContent)
      [ EvLog InfoLevel "Received request";
        EvLock; EvMapLookup "x"; EvMapDelete "x";
        EvLog InfoLevel "Data deleted successfully"; EvResponse; EvUnlock;
        EvLog InfoLevel "Request handled" ].
Proof.
  intros r sto.
  exact (conj eq_refl
           (dispatcher_brackets_handler decode_example marshal_example
              r sto (Delete r "x") eq_refl)).
Defined.

Lemma status_table_witness :
  let sto : gmap string Value := {[ "x" := foo_bar ]} in
  let r := post "/storage/x" None in
  is_Some (sto !! "x") /\
  Code (w (serve (setHandler decode_example r "x") sto)) = StatusConflict /\
  Code (w (serve (deleteHandler r "x") sto)) = StatusNoContent /\
  decode_example (Body r) = None /\
  Code (w (serve (putHandler decode_example r "x") sto)) = StatusBadRequest.
Proof.
  intros sto r.
  destruct (status_table decode_example marshal_example r "x" sto)
    as ((Hconflict & _ & _) & (Hbad & _) & _ & (_ & Hdeleted)).
  assert (Hp : is_Some (sto !! "x")) by (by exists foo_bar).
  exact (conj Hp (conj (proj2 Hconflict Hp) (conj (proj2 Hdeleted Hp)
           (conj eq_refl (proj2 Hbad eq_refl))))).
Defined.

Lemma failure_leaves_store_witness :
  let sto : gmap string Value := {[ "x" := foo_bar ]} in
  let o := Create (post "/storage/x" (Some a_1)) "x" in
  let r := get "/storage/x" in
  successful (Code (snd (step decode_example marshal_example sto o))) = false /\
  fst (step decode_example marshal_example sto o) = sto /\
  Method r <> MethodPost /\ Method r <> MethodPut /\
  Method r <> MethodDelete /\
  fst (serve_request decode_example marshal_example sto r) = sto.
Proof.
  intros sto o r.
  destruct (failure_leaves_store decode_example marshal_example sto)
    as (Hop & _ & Hverb).
  assert (Hpo : Method r <> MethodPost) by discriminate.
  assert (Hpu : Method r <> MethodPut) by discriminate.
  assert (Hd : Method r <> MethodDelete) by discriminate.
  exact (conj eq_refl (conj (Hop o eq_refl) (conj Hpo (conj Hpu (conj Hd
           (Hverb r Hpo Hpu Hd)))))).
Defined.

Lemma response_depends_on_own_entry_witness :
  let sto1 : gmap string Value := {[ "x" := foo_bar ]} in
  let sto2 : gmap string Value := <[ "y" := a_1 ]> {[ "x" := foo_bar ]} in
  let o := Read (get "/storage/x") "x" in
  sto1 !! op_key o = sto2 !! op_key o /\
  snd (step decode_example marshal_example sto1 o)
    = snd (step decode_example marshal_example sto2 o).
Proof.
  intros sto1 sto2 o.
  destruct (response_depends_on_own_entry decode_example marshal_example
              o sto1 sto2 eq_refl) as [Hresp _].
  exact (conj eq_refl Hresp).
Defined.

Lemma distinct_keys_commute_witness :
  let o1 := Create (post "/storage/x" (Some foo_bar)) "x" in
  let o2 := Delete (del "/storage/y") "y" in
  let sto : gmap string Value := {[ "y" := a_1 ]} in
  op_key o1 <> op_key o2 /\
  fst (step decode_example marshal_example
         (fst (step decode_example marshal_example sto o1)) o2)
    = fst (step decode_example marshal_example
             (fst (step decode_example marshal_example sto o2)) o1).
Proof.
  intros o1 o2 sto.
  assert (Hne : op_key o1 <> op_key o2) by discriminate.
  destruct (distinct_keys_commute decode_example marshal_example
              o1 o2 sto Hne) as [Hsto _].
  exact (conj Hne Hsto).
Defined.

Lemma upsert_is_delete_then_create_witness :
  let r := put "/storage/x" (Some a_1) in
  let sto : gmap string Value := {[ "x" := foo_bar ]} in
  decode_example (Body r) = Some a_1 /\
  fst (step decode_example marshal_example
         (fst (step decode_example marshal_example sto
                 (Delete (del "/storage/x") "x")))
         (Create r "x"))
    = fst (step decode_example marshal_example sto (Upsert r "x")).
Proof.
  intros r sto.
  destruct (upsert_is_delete_then_create decode_example marshal_example
              r (del "/storage/x") "x" sto a_1 eq_refl) as [Hsto _].
  exact (conj eq_refl Hsto).
Defined.

Lemma create_delete_round_trip_witness :
  let r := post "/storage/x" (Some foo_bar) in
  let r' := del "/storage/x" in
  let sto : gmap string Value := {[ "y" := a_1 ]} in
  let sto' : gmap string Value := {[ "x" := foo_bar ]} in
  decode_example (Body r) = Some foo_bar /\
  (sto !! "x" = None /\
   fst (step decode_example marshal_example
          (fst (step decode_example marshal_example sto (Create r "x")))
          (Delete r' "x")) = sto) /\
  (sto' !! "x" = Some foo_bar /\
   fst (step decode_example marshal_example
          (fst (step decode_example marshal_example sto' (Delete r' "x")))
          (Create r "x")) = sto').
Proof.
  intros r r' sto sto'.
  destruct (create_delete_round_trip decode_example marshal_example
              r r' "x" sto foo_bar eq_refl) as [Habsent _].
  destruct (Habsent eq_refl) as (_ & _ & Hback).
  destruct (create_delete_round_trip decode_example marshal_example
              r r' "x" sto' foo_bar eq_refl) as [_ Hpresent].
  destruct (Hpresent eq_refl) as (_ & _ & Hback').
  exact (conj eq_refl (conj (conj eq_refl Hback) (conj eq_refl Hback'))).
Defined.

Lemma stored_values_come_from_writes_witness :
  let reqs := [ post "/storage/x" (Some foo_bar);
                post "/storage/x" (Some a_1);
                del "/storage/y";
                put "/storage/y" (Some a_1) ] in
  fst (serve_all decode_example marshal_example reqs ∅) !! "x"
    = Some foo_bar /\
  exists r, In r reqs /\ writes decode_example "x" foo_bar r.
Proof.
  intros reqs.
  exact (conj eq_refl
           (stored_values_come_from_writes decode_example marshal_example
              reqs "x" foo_bar eq_refl)).
Defined.

Example settled_at_response_refuses_late_store :
  settled_at_response false [EvLock; EvResponse; EvMapStore "x" VNull; EvUnlock]
    = false.
Proof. reflexivity. Qed.

Lemma log_level_matches_outcome_witness :
  let r := post "/storage/" (Some foo_bar) in
  TrimPrefix (URL_Path r) "/storage/" = "" /\
  logs (trace (serve (storageHandler decode_example marshal_example r) ∅)) = [] /\
  logs (trace (serve (handler_of decode_example marshal_example
                        (Delete (del "/storage/x") "x")) ∅))
    = [(WarnLevel, "Data not found")].
Proof.
  intros r.
  destruct (log_level_matches_outcome decode_example marshal_example ∅)
    as [_ Hquiet].
  exact (conj eq_refl (conj (Hquiet r eq_refl) eq_refl)).
Defined.
